(** * TodoUI: the persistent store and the settings store

    A shallow embedding of [models.py], [database.py] and the loading path
    of [config.py], with the properties of the store that the project's
    specification states.

    Conventions of the embedding.

    - The store keeps a [datetime] as its ISO-8601 text
      ([datetime.isoformat]), reads it back with [fromisoformat] and
      orders it as text.  A [datetime] is modelled by an integer that
      stands for that text: the integers are ordered as the texts are.
      For the naive datetimes that [datetime.now()] returns and that the
      panes pass as due dates the text is fixed-width, and that order is
      the order of the instants.
    - [datetime.now()] is an input of every operation that reads the clock.
    - A table is the list of its rows in rowid order.  An
      [INTEGER PRIMARY KEY AUTOINCREMENT] column carries its
      [sqlite_sequence] counter: the largest id ever handed out.
    - Columns hold values of the types that [models.py] annotates.
    - [sqlite3] binds an integer parameter only when it fits 64 bits and
      raises [OverflowError] otherwise.  The operations are given for
      parameters that bind; [exec] and [mutate], the calls as they are
      issued, check the parameters first. *)

From Stdlib Require Import ZArith List String Bool Lia.
From Stdlib Require Import Sorting.Sorted Sorting.Permutation.
Import ListNotations.
Local Open Scope string_scope.
Local Open Scope list_scope.
Local Open Scope Z_scope.

Definition datetime := Z.

(** ** models.py *)

Module Project.
Record t := mk {
  id : Z;
  name : string;
  description : option string;
  is_archived : bool;
  created_at : datetime;
  archived_at : option datetime
}.
End Project.

Module Task.
Record t := mk {
  id : Z;
  project_id : Z;
  title : string;
  priority : Z;
  due_date : option datetime;
  is_completed : bool;
  is_deleted : bool;
  created_at : datetime;
  completed_at : option datetime;
  deleted_at : option datetime
}.

(** Column assignments, as an [UPDATE tasks SET col = ?] performs them. *)
Definition set_title (v : string) (r : t) : t :=
  mk (id r) (project_id r) v (priority r) (due_date r) (is_completed r)
     (is_deleted r) (created_at r) (completed_at r) (deleted_at r).
Definition set_priority (v : Z) (r : t) : t :=
  mk (id r) (project_id r) (title r) v (due_date r) (is_completed r)
     (is_deleted r) (created_at r) (completed_at r) (deleted_at r).
Definition set_due_date (v : option datetime) (r : t) : t :=
  mk (id r) (project_id r) (title r) (priority r) v (is_completed r)
     (is_deleted r) (created_at r) (completed_at r) (deleted_at r).
Definition set_is_completed (v : bool) (r : t) : t :=
  mk (id r) (project_id r) (title r) (priority r) (due_date r) v
     (is_deleted r) (created_at r) (completed_at r) (deleted_at r).
Definition set_is_deleted (v : bool) (r : t) : t :=
  mk (id r) (project_id r) (title r) (priority r) (due_date r)
     (is_completed r) v (created_at r) (completed_at r) (deleted_at r).
Definition set_completed_at (v : option datetime) (r : t) : t :=
  mk (id r) (project_id r) (title r) (priority r) (due_date r)
     (is_completed r) (is_deleted r) (created_at r) v (deleted_at r).
Definition set_deleted_at (v : option datetime) (r : t) : t :=
  mk (id r) (project_id r) (title r) (priority r) (due_date r)
     (is_completed r) (is_deleted r) (created_at r) (completed_at r) v.
End Task.

(** ** The SQL fragment the store uses *)

Module Sql.
Section Statements.
Context {row : Type}.

(** [UPDATE table SET ... WHERE cond]. *)
Definition update (set : row -> row) (cond : row -> bool)
    (table : list row) : list row :=
  map (fun r => if cond r then set r else r) table.

(** [DELETE FROM table WHERE cond]. *)
Definition delete (cond : row -> bool) (table : list row) : list row :=
  filter (fun r => negb (cond r)) table.

(** [SELECT * FROM table WHERE cond]. *)
Definition select (cond : row -> bool) (table : list row) : list row :=
  filter cond table.

(** [ORDER BY]: rows that compare equal keep their rowid order. *)
Fixpoint insert_by (leb : row -> row -> bool) (a : row) (l : list row)
    : list row :=
  match l with
  | [] => [a]
  | b :: l' => if leb a b then a :: l else b :: insert_by leb a l'
  end.

Definition order_by (leb : row -> row -> bool) (l : list row) : list row :=
  fold_right (insert_by leb) [] l.
End Statements.

(** SQLite sorts NULL before every value. *)
Definition null_first_leb (a b : option datetime) : bool :=
  match a, b with
  | None, _ => true
  | Some _, None => false
  | Some x, Some y => x <=? y
  end.
End Sql.

(** ** database.py *)

Module Database.

(** The content of the database file. *)
Record database := mk_database {
  projects : list Project.t;
  tasks : list Task.t;
  seq_projects : Z;
  seq_tasks : Z
}.

(** What [_create_tables] leaves in a file that did not exist. *)
Definition empty_database : database := mk_database [] [] 0 0.

(** A [DatabaseManager]: the file at [db_path], the state of [self.conn]
    that the operations depend on, and the copies that [_backup] has
    made, newest first: one entry for every [shutil.copy2].  The file of
    a copy is named by the second it is made in, so of the copies of one
    second the directory under [backup_path] holds the last. *)
Record DatabaseManager := mk_manager {
  db : database;
  foreign_keys : bool;
  backups : list database
}.

(** [sqlite3.connect] hands out a connection on which foreign keys are
    not enforced. *)
Definition sqlite3_connect_foreign_keys : bool := false.

(** [__init__]: connect, then [_create_tables], whose
    [PRAGMA foreign_keys = ON] acts on the connection just opened.
    [CREATE TABLE IF NOT EXISTS] leaves an existing file as it is. *)
Definition init (file : database) (backup_dir : list database)
    : DatabaseManager :=
  mk_manager file true backup_dir.

(** [_backup]: copy the file, which exists from [__init__] on, then
    replace [self.conn] by a new connection.  The pragma is not issued
    again. *)
Definition _backup (m : DatabaseManager) : DatabaseManager :=
  mk_manager (db m) sqlite3_connect_foreign_keys (db m :: backups m).

Definition with_db (d : database) (m : DatabaseManager) : DatabaseManager :=
  mk_manager d (foreign_keys m) (backups m).

Definition with_tasks (ts : list Task.t) (d : database) : database :=
  mk_database (projects d) ts (seq_projects d) (seq_tasks d).

Definition with_projects (ps : list Project.t) (d : database) : database :=
  mk_database ps (tasks d) (seq_projects d) (seq_tasks d).

Inductive exception := IntegrityError | OverflowError.

(** A call either returns a value or raises; both leave a manager. *)
Inductive result (A : Type) :=
| Return (a : A) (m : DatabaseManager)
| Raise (e : exception) (m : DatabaseManager).
Arguments Return {A} a m.
Arguments Raise {A} e m.

Definition state {A} (r : result A) : DatabaseManager :=
  match r with Return _ m => m | Raise _ m => m end.

Definition returns {A} (r : result A) : bool :=
  match r with Return _ _ => true | Raise _ _ => false end.

(** *** Project operations *)

Definition create_project (name : string) (description : option string)
    (now : datetime) (m : DatabaseManager) : Project.t * DatabaseManager :=
  let d := db m in
  let lastrowid := seq_projects d + 1 in
  let row := Project.mk lastrowid name description false now None in
  let d' := mk_database (projects d ++ [row]) (tasks d) lastrowid
              (seq_tasks d) in
  (row, _backup (with_db d' m)).

Definition project_name_leb (a b : Project.t) : bool :=
  String.leb (Project.name a) (Project.name b).

Definition get_projects (include_archived : bool) (m : DatabaseManager)
    : list Project.t :=
  if include_archived
  then Sql.order_by project_name_leb (projects (db m))
  else Sql.order_by project_name_leb
         (Sql.select (fun p => negb (Project.is_archived p)) (projects (db m))).

Definition archive_project (project_id : Z) (now : datetime)
    (m : DatabaseManager) : DatabaseManager :=
  let d := db m in
  let set p := Project.mk (Project.id p) (Project.name p)
                 (Project.description p) true (Project.created_at p)
                 (Some now) in
  _backup (with_db
    (with_projects
       (Sql.update set (fun p => Project.id p =? project_id) (projects d)) d)
    m).

(** Two statements, one commit.  The tasks go by the first statement, so
    the cascade that an enforced foreign key adds to the second one finds
    no row left to delete. *)
Definition delete_project (project_id : Z) (m : DatabaseManager)
    : DatabaseManager :=
  let d := db m in
  let d1 := with_tasks
              (Sql.delete (fun t => Task.project_id t =? project_id) (tasks d))
              d in
  let d2 := with_projects
              (Sql.delete (fun p => Project.id p =? project_id) (projects d1))
              d1 in
  _backup (with_db d2 m).

(** *** Task operations *)

Definition project_exists (project_id : Z) (d : database) : bool :=
  existsb (fun p => Project.id p =? project_id) (projects d).

(** The [INSERT] fails on the foreign key when the connection enforces
    it; the exception leaves [create_task] before [commit] and
    [_backup].  Given for a [project_id] and a [priority] that bind:
    [exec] has the call with the others. *)
Definition create_task (project_id : Z) (title : string) (priority : Z)
    (due_date : option datetime) (now : datetime) (m : DatabaseManager)
    : result Task.t :=
  let d := db m in
  if foreign_keys m && negb (project_exists project_id d)
  then Raise IntegrityError m
  else
    let lastrowid := seq_tasks d + 1 in
    let row := Task.mk lastrowid project_id title priority due_date
                 false false now None None in
    let d' := mk_database (projects d) (tasks d ++ [row])
                (seq_projects d) lastrowid in
    Return row (_backup (with_db d' m)).

Definition priority_created_leb (a b : Task.t) : bool :=
  (Task.priority a <? Task.priority b)
  || ((Task.priority a =? Task.priority b)
      && (Task.created_at a <=? Task.created_at b)).

Definition get_tasks (project_id : Z) (include_deleted : bool)
    (m : DatabaseManager) : list Task.t :=
  if include_deleted
  then Sql.order_by priority_created_leb
         (Sql.select (fun t => Task.project_id t =? project_id) (tasks (db m)))
  else Sql.order_by priority_created_leb
         (Sql.select
            (fun t => (Task.project_id t =? project_id)
                      && negb (Task.is_deleted t))
            (tasks (db m))).

(** [FROM tasks t JOIN projects p ON t.project_id = p.id WHERE cond]:
    one copy of [t] for every project row it joins with. *)
Definition join_projects (cond : Task.t -> Project.t -> bool)
    (d : database) : list Task.t :=
  flat_map
    (fun t =>
       map (fun _ => t)
         (filter (fun p => (Task.project_id t =? Project.id p) && cond t p)
            (projects d)))
    (tasks d).

Definition is_some {A} (o : option A) : bool :=
  match o with Some _ => true | None => false end.

(** [ORDER BY due_date ASC]: the column holds the ISO text of the due
    date and is ordered as text. *)
Definition due_date_leb (a b : Task.t) : bool :=
  Sql.null_first_leb (Task.due_date a) (Task.due_date b).

Definition get_tasks_with_due_dates (project_id : option Z)
    (m : DatabaseManager) : list Task.t :=
  match project_id with
  | None =>
      Sql.order_by due_date_leb
        (join_projects
           (fun t p => is_some (Task.due_date t)
                       && negb (Task.is_completed t)
                       && negb (Task.is_deleted t)
                       && negb (Project.is_archived p))
           (db m))
  | Some pid =>
      Sql.order_by due_date_leb
        (Sql.select
           (fun t => (Task.project_id t =? pid)
                     && is_some (Task.due_date t)
                     && negb (Task.is_completed t)
                     && negb (Task.is_deleted t))
           (tasks (db m)))
  end.

(** [ORDER BY completed_at DESC]. *)
Definition completed_at_desc_leb (a b : Task.t) : bool :=
  Sql.null_first_leb (Task.completed_at b) (Task.completed_at a).

Definition get_completed_tasks (project_id : option Z)
    (m : DatabaseManager) : list Task.t :=
  match project_id with
  | None =>
      Sql.order_by completed_at_desc_leb
        (join_projects
           (fun t p => Task.is_completed t
                       && negb (Task.is_deleted t)
                       && negb (Project.is_archived p))
           (db m))
  | Some pid =>
      Sql.order_by completed_at_desc_leb
        (Sql.select
           (fun t => (Task.project_id t =? pid)
                     && Task.is_completed t
                     && negb (Task.is_deleted t))
           (tasks (db m)))
  end.

Definition update_tasks (set : Task.t -> Task.t) (task_id : Z)
    (m : DatabaseManager) : DatabaseManager :=
  with_db
    (with_tasks
       (Sql.update set (fun t => Task.id t =? task_id) (tasks (db m)))
       (db m))
    m.

Definition complete_task (task_id : Z) (now : datetime)
    (m : DatabaseManager) : DatabaseManager :=
  _backup
    (update_tasks
       (fun t =>
          Task.set_completed_at (Some now) (Task.set_is_completed true t))
       task_id m).

Definition uncomplete_task (task_id : Z) (m : DatabaseManager)
    : DatabaseManager :=
  _backup
    (update_tasks
       (fun t => Task.set_completed_at None (Task.set_is_completed false t))
       task_id m).

Definition delete_task (task_id : Z) (now : datetime)
    (m : DatabaseManager) : DatabaseManager :=
  _backup
    (update_tasks
       (fun t => Task.set_deleted_at (Some now) (Task.set_is_deleted true t))
       task_id m).

(** A keyword argument of [update_task].  The five columns carry a value
    of the column's type; any other keyword is [kw_other], whose value
    [update_task] never reads.  ([kw_other] with the name of a column
    stands for no call.) *)
Inductive kwarg :=
| kw_title (v : string)
| kw_priority (v : Z)
| kw_due_date (v : option datetime)
| kw_is_completed (v : bool)
| kw_is_deleted (v : bool)
| kw_other (key : string).

Definition kw_key (kw : kwarg) : string :=
  match kw with
  | kw_title _ => "title"
  | kw_priority _ => "priority"
  | kw_due_date _ => "due_date"
  | kw_is_completed _ => "is_completed"
  | kw_is_deleted _ => "is_deleted"
  | kw_other key => key
  end.

Definition allowed_fields : list string :=
  ["title"; "priority"; "due_date"; "is_completed"; "is_deleted"].

Definition key_in (key : string) (fields : list string) : bool :=
  existsb (String.eqb key) fields.

(** One [col = ?] of the query with the value bound to it; a due date
    is bound as its [isoformat] text, [None] as NULL. *)
Definition assign (kw : kwarg) (r : Task.t) : Task.t :=
  match kw with
  | kw_title v => Task.set_title v r
  | kw_priority v => Task.set_priority v r
  | kw_due_date v => Task.set_due_date v r
  | kw_is_completed v => Task.set_is_completed v r
  | kw_is_deleted v => Task.set_is_deleted v r
  | kw_other _ => r
  end.

Definition is_empty {A} (l : list A) : bool :=
  match l with [] => true | _ => false end.

Definition update_task (task_id : Z) (kwargs : list kwarg)
    (m : DatabaseManager) : DatabaseManager :=
  if is_empty kwargs then m
  else
    let updates :=
      filter (fun kw => key_in (kw_key kw) allowed_fields) kwargs in
    if is_empty updates then m
    else
      _backup
        (update_tasks (fun t => fold_left (fun r kw => assign kw r) updates t)
           task_id m).

(** *** Calls, as the user interface issues them *)

(** The six operations that change rows selected by an id. *)
Inductive mutation :=
| Archive_project (project_id : Z) (now : datetime)
| Delete_project (project_id : Z)
| Complete_task (task_id : Z) (now : datetime)
| Uncomplete_task (task_id : Z)
| Delete_task (task_id : Z) (now : datetime)
| Update_task (task_id : Z) (kwargs : list kwarg).

Inductive call :=
| Create_project (name : string) (description : option string) (now : datetime)
| Create_task (project_id : Z) (title : string) (priority : Z)
    (due_date : option datetime) (now : datetime)
| Mutate (mu : mutation).

(** An integer that [sqlite3] binds: a signed integer of 64 bits. *)
Definition int64 (z : Z) : bool := (- 2 ^ 63 <=? z) && (z <? 2 ^ 63).

(** The integers among the values bound for a keyword. *)
Definition bindable (kw : kwarg) : bool :=
  match kw with
  | kw_priority v => int64 v
  | _ => true
  end.

(** Do the parameters of the statements of a mutation bind?  An
    [update_task] without a column to write returns before it binds. *)
Definition binds (mu : mutation) : bool :=
  match mu with
  | Archive_project pid _ | Delete_project pid => int64 pid
  | Complete_task tid _ | Uncomplete_task tid | Delete_task tid _ => int64 tid
  | Update_task tid kwargs =>
      let updates :=
        filter (fun kw => key_in (kw_key kw) allowed_fields) kwargs in
      is_empty updates || (forallb bindable updates && int64 tid)
  end.

(** The operation of a mutation, for parameters that bind. *)
Definition run (mu : mutation) (m : DatabaseManager) : DatabaseManager :=
  match mu with
  | Archive_project pid now => archive_project pid now m
  | Delete_project pid => delete_project pid m
  | Complete_task tid now => complete_task tid now m
  | Uncomplete_task tid => uncomplete_task tid m
  | Delete_task tid now => delete_task tid now m
  | Update_task tid kwargs => update_task tid kwargs m
  end.

(** The call of a mutation.  A parameter that does not bind raises
    [OverflowError] from the first [execute], before any statement runs,
    and so before [commit] and [_backup]. *)
Definition mutate (mu : mutation) (m : DatabaseManager) : result unit :=
  if binds mu then Return tt (run mu m) else Raise OverflowError m.

Definition exec (c : call) (m : DatabaseManager) : result unit :=
  match c with
  | Create_project name description now =>
      Return tt (snd (create_project name description now m))
  | Create_task pid title priority due now =>
      if int64 pid && int64 priority
      then
        match create_task pid title priority due now m with
        | Return _ m' => Return tt m'
        | Raise e m' => Raise e m'
        end
      else Raise OverflowError m
  | Mutate mu => mutate mu m
  end.



(** A call that returns before it has a statement to execute. *)
Definition skips (c : call) : bool :=
  match c with
  | Mutate (Update_task _ kwargs) =>
      is_empty (filter (fun kw => key_in (kw_key kw) allowed_fields) kwargs)
  | _ => false
  end.

(** One step of the life of a store: a call, or the application being
    started again on the same file and backup directory. *)
Inductive step : DatabaseManager -> DatabaseManager -> Prop :=
| step_call c m : step m (state (exec c m))
| step_restart m : step m (init (db m) (backups m)).

Inductive steps : DatabaseManager -> DatabaseManager -> Prop :=
| steps_refl m : steps m m
| steps_trans m1 m2 m3 : steps m1 m2 -> step m2 m3 -> steps m1 m3.

(** The states of a store that started on a new file. *)
Definition reachable (m : DatabaseManager) : Prop :=
  steps (init empty_database []) m.

(** *** Queries that list tasks *)

Definition listed (task_id : Z) (m : DatabaseManager) : Prop :=
  (exists pid incl, In task_id (map Task.id (get_tasks pid incl m)))
  \/ (exists pid, In task_id (map Task.id (get_tasks_with_due_dates pid m)))
  \/ (exists pid, In task_id (map Task.id (get_completed_tasks pid m))).

(** *** Properties of rows *)

(** [completed_at] is non-null exactly when [is_completed] is true. *)
Definition completion_consistent (t : Task.t) : Prop :=
  Task.completed_at t <> None <-> Task.is_completed t = true.

Definition completion_invariant (d : database) : Prop :=
  Forall completion_consistent (tasks d).

(** [ORDER BY priority, created_at]. *)
Definition priority_created_le (a b : Task.t) : Prop :=
  Task.priority a < Task.priority b
  \/ (Task.priority a = Task.priority b
      /\ Task.created_at a <= Task.created_at b).

(** Ids are distinct and none exceeds the counter of the table. *)
Definition task_ids (d : database) : list Z := map Task.id (tasks d).

Definition task_ids_wf (d : database) : Prop :=
  NoDup (task_ids d) /\ Forall (fun i => i <= seq_tasks d) (task_ids d).

(** An id that the table handed out and that no row carries any more. *)
Definition retired (task_id : Z) (d : database) : Prop :=
  ~ In task_id (task_ids d) /\ task_id <= seq_tasks d.

(** Is [is_completed] among the keywords of an [update_task]? *)
Definition passes_is_completed (c : call) : bool :=
  match c with
  | Mutate (Update_task _ kwargs) =>
      existsb (fun kw => String.eqb (kw_key kw) "is_completed") kwargs
  | _ => false
  end.

End Database.

(** ** config.py *)

Module Config.

(** A Python value as [json.load] builds it.  A float keeps its literal. *)
#[warnings="-register-all"]
Inductive value :=
| VNone
| VBool (b : bool)
| VInt (z : Z)
| VFloat (literal : string)
| VStr (s : string)
| VList (l : list value)
| VDict (items : list (string * value)).

(** The [Config] dataclass.  A dataclass does not check the annotations
    of its fields, so a field holds whatever value it was given. *)
Record Config := mk {
  database_path : value;
  backup_path : value;
  frame_count : value;
  default_priority : value;
  theme : value;
  frame_projects : value
}.

(** The settings file as [open] and [json.load] see it: a text that is
    not JSON makes [json.load] raise, any other file decodes to a
    value. *)
Inductive file :=
| Garbage (text : string)
| Document (v : value).

(** The part of the file system that the settings store touches. *)
Record filesystem := mk_fs {
  config_file : option file;
  directories : list string
}.

Definition field_names : list string :=
  ["database_path"; "backup_path"; "frame_count"; "default_priority";
   "theme"; "frame_projects"].

Definition get (key : string) (items : list (string * value))
    : option value :=
  match find (fun kv => String.eqb (fst kv) key) items with
  | Some kv => Some (snd kv)
  | None => None
  end.

Definition get_default (key : string) (items : list (string * value))
    (default : value) : value :=
  match get key items with Some v => v | None => default end.

(** [Config] called on the keywords of [data], as the double star
    unpacks them: [None] stands for the [TypeError] of a [data] that is
    no mapping, of a keyword that is no field, and of a missing
    [database_path] or [backup_path]. *)
Definition Config_of_kwargs (data : value) : option Config :=
  match data with
  | VDict items =>
      if forallb (fun kv => existsb (String.eqb (fst kv)) field_names) items
      then
        match get "database_path" items, get "backup_path" items with
        | Some dbp, Some bkp =>
            Some (mk dbp bkp
                    (get_default "frame_count" items (VInt 3))
                    (get_default "default_priority" items (VInt 0))
                    (get_default "theme" items (VStr "dark"))
                    (get_default "frame_projects" items (VList [])))
        | _, _ => None
        end
      else None
  | _ => None
  end.

(** The body of the [try]: [None] when any statement of it raises. *)
Definition load (f : file) : option Config :=
  match f with
  | Garbage _ => None
  | Document data => Config_of_kwargs data
  end.

Definition asdict (c : Config) : value :=
  VDict [("database_path", database_path c);
         ("backup_path", backup_path c);
         ("frame_count", frame_count c);
         ("default_priority", default_priority c);
         ("theme", theme c);
         ("frame_projects", frame_projects c)].

Section Paths.
(** [str(DEFAULT_DATA_DIR)], [str(DEFAULT_DB_PATH)] and
    [str(DEFAULT_BACKUP_DIR)]: they depend on where the application is
    installed. *)
Variables DEFAULT_DATA_DIR DEFAULT_DB_PATH DEFAULT_BACKUP_DIR : string.

Definition default : Config :=
  mk (VStr DEFAULT_DB_PATH) (VStr DEFAULT_BACKUP_DIR)
     (VInt 3) (VInt 0) (VStr "dark") (VList []).

(** [_save]: the file is opened for writing, which replaces it. *)
Definition _save (c : Config) (fs : filesystem) : filesystem :=
  mk_fs (Some (Document (asdict c))) (directories fs).

(** [_ensure_directories], which runs on the default configuration
    only: the parent of the database path is the data directory. *)
Definition _ensure_directories (fs : filesystem) : filesystem :=
  mk_fs (config_file fs)
        (DEFAULT_BACKUP_DIR :: DEFAULT_DATA_DIR :: directories fs).

(** [_load_or_create] returns the value of [self._config] and the file
    system it leaves. *)
Definition _load_or_create (fs : filesystem) : Config * filesystem :=
  match config_file fs with
  | Some f =>
      match load f with
      | Some c => (c, fs)
      | None => (default, _save default fs)
      end
  | None => (default, _save default (_ensure_directories fs))
  end.
End Paths.

End Config.

(** ** A small store, for the examples *)

Module Example.
Import Database.

(** A new store; project 1 with two tasks; then task 2 is soft-deleted. *)
Definition m0 : DatabaseManager := init empty_database [].
Definition m1 : DatabaseManager := snd (create_project "Home" None 10 m0).
Definition m2 : DatabaseManager :=
  state (create_task 1 "Buy milk" 0 (Some 500) 20 m1).
Definition m3 : DatabaseManager :=
  state (create_task 1 "Pay rent" (-5) (Some 400) 21 m2).
Definition m4 : DatabaseManager := delete_task 2 30 m3.

Definition pay_rent_deleted : Task.t :=
  Task.mk 2 1 "Pay rent" (-5) (Some 400) false true 21 None (Some 30).
End Example.

(** ** Further notions of the store *)

Module Store.
Import Database.

Definition project_ids (d : database) : list Z := map Project.id (projects d).

(** Project ids are distinct and none exceeds the counter of the table. *)
Definition project_ids_wf (d : database) : Prop :=
  NoDup (project_ids d)
  /\ Forall (fun i => i <= seq_projects d) (project_ids d).

(** The order of a nullable timestamp column: NULL first. *)
Definition null_first_le (a b : option datetime) : Prop :=
  match a, b with
  | None, _ => True
  | Some _, None => False
  | Some x, Some y => x <= y
  end.

(** [ORDER BY due_date ASC]: the order of the ISO texts of the due
    dates, which for naive due dates is the order of the instants. *)
Definition due_date_le (a b : Task.t) : Prop :=
  null_first_le (Task.due_date a) (Task.due_date b).

(** [ORDER BY completed_at DESC]. *)
Definition completed_at_ge (a b : Task.t) : Prop :=
  null_first_le (Task.completed_at b) (Task.completed_at a).

(** [ORDER BY name]. *)
Definition name_le (a b : Project.t) : Prop :=
  String.leb (Project.name a) (Project.name b) = true.

(** The copy made last is a copy of the file as it is. *)
Definition backup_current (m : DatabaseManager) : Prop :=
  match backups m with
  | [] => db m = empty_database
  | newest :: _ => newest = db m
  end.

(** The columns of a task that no operation is meant to rewrite. *)
Definition same_origin (t t' : Task.t) : Prop :=
  Task.project_id t' = Task.project_id t
  /\ Task.created_at t' = Task.created_at t
  /\ (Task.deleted_at t <> None -> Task.deleted_at t' <> None).

(** [archived_at] is non-null exactly when [is_archived] is true. *)
Definition archive_consistent (p : Project.t) : Prop :=
  Project.archived_at p <> None <-> Project.is_archived p = true.

(** The keys of a list of keyword arguments. *)
Definition keys (kwargs : list kwarg) : list string := map kw_key kwargs.

(** What a call of [update_task] with the keywords [ks] keeps of a row:
    the five columns it cannot name, and each column it does not name. *)
Definition columns_kept (ks : list string) (t t' : Task.t) : Prop :=
  Task.id t' = Task.id t
  /\ Task.project_id t' = Task.project_id t
  /\ Task.created_at t' = Task.created_at t
  /\ Task.completed_at t' = Task.completed_at t
  /\ Task.deleted_at t' = Task.deleted_at t
  /\ (~ In "title" ks -> Task.title t' = Task.title t)
  /\ (~ In "priority" ks -> Task.priority t' = Task.priority t)
  /\ (~ In "due_date" ks -> Task.due_date t' = Task.due_date t)
  /\ (~ In "is_completed" ks -> Task.is_completed t' = Task.is_completed t)
  /\ (~ In "is_deleted" ks -> Task.is_deleted t' = Task.is_deleted t).

End Store.

(** ** config.py: [ConfigManager.update] *)

Module ConfigManager.
Import Config.

Definition is_field (key : string) : bool :=
  existsb (String.eqb key) field_names.

(** [setattr(self._config, key, value)] for the name of a field. *)
Definition setattr (key : string) (v : value) (c : Config) : Config :=
  if String.eqb key "database_path" then
    mk v (backup_path c) (frame_count c) (default_priority c) (theme c)
       (frame_projects c)
  else if String.eqb key "backup_path" then
    mk (database_path c) v (frame_count c) (default_priority c) (theme c)
       (frame_projects c)
  else if String.eqb key "frame_count" then
    mk (database_path c) (backup_path c) v (default_priority c) (theme c)
       (frame_projects c)
  else if String.eqb key "default_priority" then
    mk (database_path c) (backup_path c) (frame_count c) v (theme c)
       (frame_projects c)
  else if String.eqb key "theme" then
    mk (database_path c) (backup_path c) (frame_count c) (default_priority c)
       v (frame_projects c)
  else if String.eqb key "frame_projects" then
    mk (database_path c) (backup_path c) (frame_count c) (default_priority c)
       (theme c) v
  else c.

(** [getattr(self._config, key)] for the name of a field. *)
Definition getattr (key : string) (c : Config) : option value :=
  if String.eqb key "database_path" then Some (database_path c)
  else if String.eqb key "backup_path" then Some (backup_path c)
  else if String.eqb key "frame_count" then Some (frame_count c)
  else if String.eqb key "default_priority" then Some (default_priority c)
  else if String.eqb key "theme" then Some (theme c)
  else if String.eqb key "frame_projects" then Some (frame_projects c)
  else None.

Section Attributes.
(** The names, other than the six fields, that [hasattr] finds on a
    [Config]: its methods and the attributes every object has. *)
Variable class_attribute : string -> bool.

(** The loop of [update].  A keyword that names no attribute is skipped.
    [None]: a keyword names an attribute that is no field; what [setattr]
    does to it is not part of this embedding. *)
Fixpoint update_fields (kwargs : list (string * value)) (c : Config)
    : option Config :=
  match kwargs with
  | [] => Some c
  | (key, v) :: kwargs' =>
      if is_field key then update_fields kwargs' (setattr key v c)
      else if class_attribute key then None
      else update_fields kwargs' c
  end.

(** [update]: the loop, then [_save]. *)
Definition update (kwargs : list (string * value)) (c : Config)
    (fs : filesystem) : option (Config * filesystem) :=
  match update_fields kwargs c with
  | Some c' => Some (c', _save c' fs)
  | None => None
  end.
End Attributes.

End ConfigManager.

(** ** widgets.py: what the panes take from the store *)

Module Widgets.
Import Database.

(** [proj_names.get(project_id, "?")] on the dictionary that the
    comprehension builds from [projects]: a later project replaces an
    earlier one of the same id. *)
Definition proj_names_get (projects : list Project.t) (project_id : Z)
    : string :=
  match find (fun p => Project.id p =? project_id) (rev projects) with
  | Some p => Project.name p
  | None => "?"
  end.

(** The rows of [CalendarWidget._refresh_tasks]: each task with the name
    shown beside it.  No task, no row: the empty label is shown. *)
Definition calendar_items (project_id : option Z) (m : DatabaseManager)
    : list (Task.t * string) :=
  let tasks := get_tasks_with_due_dates project_id m in
  if is_empty tasks then []
  else
    let projects := get_projects false m in
    map (fun t => (t, proj_names_get projects (Task.project_id t))) tasks.

(** The rows of [HistoryWidget._refresh_tasks]. *)
Definition history_items (project_id : option Z) (m : DatabaseManager)
    : list (Task.t * string) :=
  let tasks := get_completed_tasks project_id m in
  if is_empty tasks then []
  else
    let projects := get_projects false m in
    map (fun t => (t, proj_names_get projects (Task.project_id t))) tasks.

(** [ProjectTaskWidget._refresh_tasks]: the tasks added to the active
    layout and those added to the completed layout, in the order they are
    added. *)
Definition task_panes (current_project_id : option Z) (m : DatabaseManager)
    : list Task.t * list Task.t :=
  match current_project_id with
  | None => ([], [])
  | Some pid =>
      let tasks := get_tasks pid false m in
      (filter (fun t => negb (Task.is_completed t)) tasks,
       filter Task.is_completed tasks)
  end.

(** The loop of [_refresh_projects]: the index in the combo box, whose
    item 0 is the placeholder, of the last project whose id is
    [current_id]; 0 when there is none. *)
Fixpoint selected_index (current_id : option Z) (projects : list Project.t)
    (i selected : nat) : nat :=
  match projects with
  | [] => selected
  | project :: projects' =>
      let selected' :=
        match current_id with
        | Some id => if Project.id project =? id then S i else selected
        | None => selected
        end in
      selected_index current_id projects' (S i) selected'
  end.

(** [_refresh_projects]: the value of [current_project_id] it leaves.
    [itemData] of item [i + 1] is the id of project [i]. *)
Definition _refresh_projects (current_project_id : option Z)
    (m : DatabaseManager) : option Z :=
  let projects := get_projects false m in
  match selected_index current_project_id projects 0 0 with
  | O => None
  | S i => option_map Project.id (nth_error projects i)
  end.

End Widgets.

(** * Properties *)

(** ** Statements *)

Section SqlFacts.
Context {row : Type}.

Lemma in_update (set : row -> row) (cond : row -> bool) table r :
  In r (Sql.update set cond table) <->
  exists r0, In r0 table /\ r = (if cond r0 then set r0 else r0).
Proof.
  unfold Sql.update. rewrite in_map_iff. split.
  - intros (r0 & E & I). exists r0. auto.
  - intros (r0 & I & E). exists r0. auto.
Qed.



Lemma update_update (set1 set2 : row -> row) (cond : row -> bool) table :
  (forall r, cond (set1 r) = cond r) ->
  Sql.update set2 cond (Sql.update set1 cond table)
  = Sql.update (fun r => set2 (set1 r)) cond table.
Proof.
  intros Hc. unfold Sql.update. rewrite map_map. apply map_ext.
  intros r. destruct (cond r) eqn:E.
  - rewrite Hc, E. reflexivity.
  - rewrite E. reflexivity.
Qed.

Lemma map_update {K} (key : row -> K) (set : row -> row) cond table :
  (forall r, key (set r) = key r) ->
  map key (Sql.update set cond table) = map key table.
Proof.
  intros E. unfold Sql.update. rewrite map_map. apply map_ext.
  intros r. destruct (cond r); auto.
Qed.

Section OrderBy.
Variable leb : row -> row -> bool.

Lemma in_insert_by a l r :
  In r (Sql.insert_by leb a l) <-> r = a \/ In r l.
Proof.
  induction l as [|b l IH]; simpl.
  - intuition.
  - destruct (leb a b); simpl; rewrite ?IH; intuition.
Qed.

Lemma in_order_by l r : In r (Sql.order_by leb l) <-> In r l.
Proof.
  induction l as [|a l IH]; simpl.
  - reflexivity.
  - rewrite in_insert_by, IH. intuition.
Qed.

Variable le : row -> row -> Prop.
Hypothesis leb_le : forall a b, leb a b = true -> le a b.
Hypothesis leb_total : forall a b, leb a b = false -> le b a.
Hypothesis le_trans : forall a b c, le a b -> le b c -> le a c.

Lemma insert_by_sorted a l :
  StronglySorted le l -> StronglySorted le (Sql.insert_by leb a l).
Proof.
  induction 1 as [|b l S IH F]; simpl.
  - constructor; constructor.
  - destruct (leb a b) eqn:E.
    + constructor.
      * constructor; assumption.
      * constructor.
        -- apply leb_le; exact E.
        -- eapply Forall_impl; [|exact F].
           intros c Hbc. apply le_trans with b; auto.
    + constructor; [exact IH|].
      apply Forall_forall. intros c Hc.
      apply in_insert_by in Hc. destruct Hc as [->|Hc].
      * apply leb_total; exact E.
      * rewrite Forall_forall in F. auto.
Qed.

Lemma order_by_sorted l : StronglySorted le (Sql.order_by leb l).
Proof.
  induction l as [|a l IH]; simpl.
  - constructor.
  - apply insert_by_sorted; exact IH.
Qed.
End OrderBy.
End SqlFacts.

(** ** The store *)

Import Database.

Lemma priority_created_leb_le a b :
  priority_created_leb a b = true -> priority_created_le a b.
Proof.
  unfold priority_created_leb, priority_created_le. intros H.
  apply orb_true_iff in H. destruct H as [H|H].
  - left. apply Z.ltb_lt; exact H.
  - apply andb_true_iff in H. destruct H as [H1 H2].
    right. split; [apply Z.eqb_eq|apply Z.leb_le]; assumption.
Qed.

Lemma priority_created_leb_total a b :
  priority_created_leb a b = false -> priority_created_le b a.
Proof.
  unfold priority_created_leb, priority_created_le. intros H.
  apply orb_false_iff in H. destruct H as [H1 H2].
  apply Z.ltb_ge in H1. apply andb_false_iff in H2.
  destruct H2 as [H2|H2].
  - apply Z.eqb_neq in H2. left. lia.
  - apply Z.leb_gt in H2. lia.
Qed.

Lemma priority_created_le_trans a b c :
  priority_created_le a b -> priority_created_le b c -> priority_created_le a c.
Proof. unfold priority_created_le. lia. Qed.


Lemma key_in_spec key fields : key_in key fields = true <-> In key fields.
Proof.
  unfold key_in. rewrite existsb_exists. split.
  - intros (k & I & E). apply String.eqb_eq in E. subst. exact I.
  - intros I. exists key. split; [exact I|apply String.eqb_refl].
Qed.




Lemma update_task_cases task_id kwargs m :
  update_task task_id kwargs m = m
  \/ exists set, update_task task_id kwargs m
                 = _backup (update_tasks set task_id m)
                 /\ forall t, Task.id (set t) = Task.id t
                              /\ Task.project_id (set t) = Task.project_id t.
Proof.
  unfold update_task. destruct (is_empty kwargs); [left; reflexivity|].
  destruct (is_empty _); [left; reflexivity|].
  right. eexists. split; [reflexivity|].
  generalize (filter (fun kw => key_in (kw_key kw) allowed_fields) kwargs).
  intros l. induction l as [|kw l IH]; simpl; intros t.
  - auto.
  - destruct (IH (assign kw t)) as [E1 E2]. rewrite E1, E2.
    destruct kw; auto.
Qed.

(** C10. [update_task] called with no keyword, or with keywords that are
    all outside title, priority, due_date, is_completed and is_deleted,
    returns at once: the rows, the connection and the backup directory
    are as before. *)
Theorem update_task_without_allowed_fields task_id kwargs m :
  Forall (fun kw => ~ In (kw_key kw) allowed_fields) kwargs ->
  update_task task_id kwargs m = m.
Proof.
  intros H. unfold update_task.
  destruct kwargs as [|kw kwargs]; [reflexivity|]. cbn [is_empty].
  replace (filter _ (kw :: kwargs)) with (@nil kwarg); [reflexivity|].
  symmetry. induction H as [|k l Hk Hl IH]; [reflexivity|].
  cbn [filter]. destruct (key_in (kw_key k) allowed_fields) eqn:E.
  - apply key_in_spec in E. contradiction.
  - exact IH.
Qed.

Lemma update_task_without_allowed_fields_witness :
  Forall (fun kw => ~ In (kw_key kw) allowed_fields)
    [kw_other "colour"; kw_other "id"]
  /\ update_task 2 [kw_other "colour"; kw_other "id"] Example.m3 = Example.m3.
Proof.
  assert (H : Forall (fun kw => ~ In (kw_key kw) allowed_fields)
                [kw_other "colour"; kw_other "id"]).
  { repeat constructor; simpl; intuition discriminate. }
  split; [exact H|].
  exact (update_task_without_allowed_fields 2 _ Example.m3 H).
Defined.

(** C9. For a soft-deleted task, [update_task] with [is_deleted=False]
    clears the flag: the task, absent from [get_tasks] without deleted
    tasks before the call, is listed there after it, and its [deleted_at]
    keeps the non-null value it had. *)
Theorem update_task_undeletes m t d :
  In t (tasks (db m)) ->
  Task.is_deleted t = true ->
  Task.deleted_at t = Some d ->
  let m' := update_task (Task.id t) [kw_is_deleted false] m in
  ~ In t (get_tasks (Task.project_id t) false m)
  /\ exists t',
       In t' (get_tasks (Task.project_id t) false m')
       /\ t' = Task.set_is_deleted false t
       /\ Task.is_deleted t' = false
       /\ Task.deleted_at t' = Some d.
Proof.
  intros I D A m'. split.
  - unfold get_tasks. rewrite in_order_by. unfold Sql.select.
    rewrite filter_In. intros [_ H]. rewrite D in H.
    rewrite andb_false_r in H. discriminate.
  - exists (Task.set_is_deleted false t). repeat split; [|exact A].
    unfold get_tasks. rewrite in_order_by. unfold Sql.select.
    apply filter_In. split.
    + subst m'. cbn. apply in_update. exists t. split; [exact I|].
      rewrite Z.eqb_refl. reflexivity.
    + cbn. rewrite Z.eqb_refl. reflexivity.
Qed.

Lemma update_task_undeletes_witness :
  In Example.pay_rent_deleted (tasks (db Example.m4))
  /\ exists t',
       In t' (get_tasks 1 false
                (update_task 2 [kw_is_deleted false] Example.m4))
       /\ Task.is_deleted t' = false
       /\ Task.deleted_at t' = Some 30.
Proof.
  assert (I : In Example.pay_rent_deleted (tasks (db Example.m4))).
  { right; left; reflexivity. }
  split; [exact I|].
  destruct (update_task_undeletes Example.m4 Example.pay_rent_deleted 30
              I eq_refl eq_refl) as [_ (t' & L & _ & D & A)].
  exists t'. split; [exact L|]. split; [exact D|exact A].
Defined.






(** C4 (as the code has it).  A second [delete_task] on the same id
    leaves the rows as a single call made at the time of the second call
    leaves them: every row but the addressed one is as after the first
    call, and [deleted_at] of the addressed row holds the time of the
    second call. *)
Theorem delete_task_twice m task_id now1 now2 :
  db (delete_task task_id now2 (delete_task task_id now1 m))
  = db (delete_task task_id now2 m)
  /\ forall t,
       In t (tasks (db (delete_task task_id now2
                          (delete_task task_id now1 m)))) ->
       Task.id t = task_id ->
       Task.is_deleted t = true /\ Task.deleted_at t = Some now2.
Proof.
  split.
  - unfold delete_task, update_tasks, with_tasks.
    cbn [db tasks projects seq_projects seq_tasks _backup with_db].
    rewrite update_update by reflexivity.
    reflexivity.
  - intros t I E. unfold delete_task, update_tasks in I.
    cbn [db tasks projects seq_projects seq_tasks _backup with_db with_tasks]
      in I.
    apply in_update in I. destruct I as (r & _ & ->).
    destruct (Task.id r =? task_id) eqn:C.
    + split; reflexivity.
    + apply Z.eqb_neq in C. contradiction.
Qed.

(** C4, as stated, fails: after the second call the row differs from the
    row after the first call, and [deleted_at] holds the second time. *)
Lemma delete_task_twice_counterexample :
  let once := delete_task 2 30 Example.m3 in
  let twice := delete_task 2 40 once in
  db twice <> db once
  /\ map Task.deleted_at (tasks (db once)) = [None; Some 30]
  /\ map Task.deleted_at (tasks (db twice)) = [None; Some 40].
Proof.
  repeat split.
  intros H. apply (f_equal (fun d => map Task.deleted_at (tasks d))) in H.
  vm_compute in H. discriminate H.
Qed.

(** ** Task ids *)

Section ListFacts.
Context {A B : Type} (f : A -> B).

Lemma NoDup_map_filter (keep : A -> bool) l :
  NoDup (map f l) -> NoDup (map f (filter keep l)).
Proof.
  induction l as [|a l IH]; simpl; intros H.
  - constructor.
  - inversion H as [|x xs Hn Hd]; subst.
    destruct (keep a); simpl; [constructor|]; auto.
    intros I. apply Hn. apply in_map_iff in I.
    destruct I as (b & E & I). apply filter_In in I.
    apply in_map_iff. exists b. tauto.
Qed.

Lemma in_map_filter (keep : A -> bool) l b :
  In b (map f (filter keep l)) -> In b (map f l).
Proof.
  rewrite !in_map_iff. intros (a & E & I). apply filter_In in I.
  exists a. tauto.
Qed.

Lemma NoDup_map_eq l a b :
  NoDup (map f l) -> In a l -> In b l -> f a = f b -> a = b.
Proof.
  induction l as [|x l IH]; simpl; intros H Ia Ib E; [contradiction|].
  inversion H as [|y ys Hn Hd]; subst.
  destruct Ia as [->|Ia], Ib as [->|Ib]; auto.
  - exfalso. apply Hn. rewrite E. apply in_map; exact Ib.
  - exfalso. apply Hn. rewrite <- E. apply in_map; exact Ia.
Qed.
End ListFacts.

(** What a call does to the ids of the task table: it appends the next
    id, or it keeps a selection of the rows, ids untouched. *)
Lemma exec_task_ids c m :
  let d := db m in
  let d' := db (state (exec c m)) in
  (task_ids d' = task_ids d ++ [seq_tasks d + 1]
   /\ seq_tasks d' = seq_tasks d + 1)
  \/ (seq_tasks d' = seq_tasks d
      /\ exists keep, task_ids d' = map Task.id (filter keep (tasks d))).
Proof.
  assert (same : forall l : list Task.t,
             map Task.id l = map Task.id (filter (fun _ => true) l)).
  { intros l. rewrite filter_true. reflexivity. }
  assert (upd : forall set tid,
             (forall t, Task.id (set t) = Task.id t) ->
             task_ids (db (_backup (update_tasks set tid m)))
             = map Task.id (filter (fun _ => true) (tasks (db m)))).
  { intros set tid H. unfold task_ids, update_tasks. cbn.
    rewrite map_update by exact H. apply same. }
  destruct c as [name description now|pid title priority due now|mu];
    cbn [exec].
  - right. split; [reflexivity|]. eexists. apply same.
  - destruct (int64 pid && int64 priority);
      [|right; split; [reflexivity|]; eexists; apply same].
    unfold create_task. destruct (_ && _); cbn.
    + right. split; [reflexivity|]. eexists. apply same.
    + left. unfold task_ids. cbn. rewrite map_app. auto.
  - unfold mutate. destruct (binds mu);
      [|right; split; [reflexivity|]; eexists; apply same].
    destruct mu as [pid now|pid|tid now|tid|tid now|tid kwargs];
      cbn [run state]; right.
    + split; [reflexivity|]. eexists. apply same.
    + split; [reflexivity|]. eexists. reflexivity.
    + split; [reflexivity|]. eexists. apply upd. reflexivity.
    + split; [reflexivity|]. eexists. apply upd. reflexivity.
    + split; [reflexivity|]. eexists. apply upd. reflexivity.
    + destruct (update_task_cases tid kwargs m) as [E|(set & E & H)];
        rewrite E.
      * split; [reflexivity|]. eexists. apply same.
      * split; [reflexivity|]. eexists. apply upd. apply H.
Qed.

Lemma task_ids_wf_step m m' :
  step m m' -> task_ids_wf (db m) -> task_ids_wf (db m').
Proof.
  intros S [N F]. destruct S as [c m|m]; [|split; assumption].
  destruct (exec_task_ids c m) as [[E Q]|[Q [keep E]]];
    unfold task_ids_wf; rewrite E, Q.
  - split.
    + apply NoDup_app. repeat split; auto.
      * constructor; [intros []|constructor].
      * intros i I [<-|[]]. rewrite Forall_forall in F.
        specialize (F _ I). lia.
    + apply Forall_app. split.
      * eapply Forall_impl; [|exact F]. cbv beta. intros; lia.
      * constructor; [lia|constructor].
  - split.
    + apply NoDup_map_filter; exact N.
    + rewrite Forall_forall in *. intros i I. apply F.
      eapply in_map_filter; exact I.
Qed.

Lemma task_ids_wf_steps m m' :
  steps m m' -> task_ids_wf (db m) -> task_ids_wf (db m').
Proof.
  induction 1 as [|m1 m2 m3 S IH St]; [auto|].
  intros W. eapply task_ids_wf_step; eauto.
Qed.

Lemma task_ids_wf_reachable m : reachable m -> task_ids_wf (db m).
Proof.
  intros R. apply (task_ids_wf_steps _ _ R). split; constructor.
Qed.

Lemma retired_step task_id m m' :
  step m m' -> retired task_id (db m) -> retired task_id (db m').
Proof.
  intros S [N L]. destruct S as [c m|m]; [|split; assumption].
  destruct (exec_task_ids c m) as [[E Q]|[Q [keep E]]];
    unfold retired; rewrite E, Q.
  - split; [|lia]. intros I. apply in_app_or in I.
    destruct I as [I|[I|[]]]; [auto|lia].
  - split; [|exact L]. intros I. apply N.
    eapply in_map_filter; exact I.
Qed.

Lemma retired_steps task_id m m' :
  steps m m' -> retired task_id (db m) -> retired task_id (db m').
Proof.
  induction 1 as [|m1 m2 m3 S IH St]; [auto|].
  intros R. eapply retired_step; eauto.
Qed.

(** ** Queries list rows of the task table *)

Lemma in_join_projects cond d t :
  In t (join_projects cond d) -> In t (tasks d).
Proof.
  unfold join_projects. rewrite in_flat_map.
  intros (t0 & I & J). apply in_map_iff in J.
  destruct J as (p & E & _). subst. exact I.
Qed.

Lemma get_tasks_in pid include_deleted m t :
  In t (get_tasks pid include_deleted m) ->
  In t (tasks (db m)) /\ Task.project_id t = pid.
Proof.
  unfold get_tasks, Sql.select.
  destruct include_deleted; rewrite in_order_by, filter_In; intros [I C].
  - split; [exact I|]. apply Z.eqb_eq; exact C.
  - apply andb_true_iff in C. split; [exact I|]. apply Z.eqb_eq; tauto.
Qed.

Lemma get_tasks_with_due_dates_in pid m t :
  In t (get_tasks_with_due_dates pid m) -> In t (tasks (db m)).
Proof.
  unfold get_tasks_with_due_dates, Sql.select.
  destruct pid; rewrite in_order_by.
  - rewrite filter_In; tauto.
  - apply in_join_projects.
Qed.

Lemma get_completed_tasks_in pid m t :
  In t (get_completed_tasks pid m) -> In t (tasks (db m)).
Proof.
  unfold get_completed_tasks, Sql.select.
  destruct pid; rewrite in_order_by.
  - rewrite filter_In; tauto.
  - apply in_join_projects.
Qed.

Lemma listed_in_table task_id m :
  listed task_id m -> In task_id (task_ids (db m)).
Proof.
  unfold task_ids.
  intros [(pid & incl & I)|[(pid & I)|(pid & I)]];
    apply in_map_iff in I; destruct I as (t & E & I);
    apply in_map_iff; exists t; split; try exact E.
  - eapply get_tasks_in; exact I.
  - eapply get_tasks_with_due_dates_in; exact I.
  - eapply get_completed_tasks_in; exact I.
Qed.

Lemma delete_project_retires m t :
  task_ids_wf (db m) ->
  In t (tasks (db m)) ->
  retired (Task.id t) (db (delete_project (Task.project_id t) m)).
Proof.
  intros [N F] I. unfold retired, task_ids, delete_project, Sql.delete. cbn.
  split.
  - intros J. apply in_map_iff in J. destruct J as (t' & E & J).
    apply filter_In in J. destruct J as [J C].
    assert (t' = t) by (eapply NoDup_map_eq; eauto). subst t'.
    rewrite Z.eqb_refl in C. discriminate.
  - rewrite Forall_forall in F. apply F. apply in_map. exact I.
Qed.

(** C6. Let [t] be a task of a project, soft-deleted or not.  From
    [delete_project] of that project on, whatever the store goes through,
    no listing of tasks shows [t]: not [get_tasks] with deleted tasks
    included, not [get_tasks_with_due_dates], not [get_completed_tasks]. *)
Theorem delete_project_removes_tasks m t m' :
  reachable m ->
  In t (tasks (db m)) ->
  steps (delete_project (Task.project_id t) m) m' ->
  ~ listed (Task.id t) m'.
Proof.
  intros R I S L.
  assert (Rt : retired (Task.id t) (db m')).
  { apply (retired_steps _ _ _ S). apply delete_project_retires.
    - apply task_ids_wf_reachable; exact R.
    - exact I. }
  destruct Rt as [N _]. apply N. apply listed_in_table. exact L.
Qed.

Lemma example_reachable : reachable Example.m4.
Proof.
  unfold reachable.
  apply steps_trans with Example.m3;
    [|exact (step_call (Mutate (Delete_task 2 30)) Example.m3)].
  apply steps_trans with Example.m2;
    [|exact (step_call (Create_task 1 "Pay rent" (-5) (Some 400) 21)
               Example.m2)].
  apply steps_trans with Example.m1;
    [|exact (step_call (Create_task 1 "Buy milk" 0 (Some 500) 20) Example.m1)].
  apply steps_trans with Example.m0;
    [|exact (step_call (Create_project "Home" None 10) Example.m0)].
  apply steps_refl.
Qed.

Lemma delete_project_removes_tasks_witness :
  reachable Example.m4
  /\ In Example.pay_rent_deleted (tasks (db Example.m4))
  /\ ~ listed 2
       (state (exec (Create_task 1 "Pay rent" 0 None 50)
                 (delete_project 1 Example.m4))).
Proof.
  assert (I : In Example.pay_rent_deleted (tasks (db Example.m4))).
  { right; left; reflexivity. }
  split; [exact example_reachable|]. split; [exact I|].
  apply (delete_project_removes_tasks Example.m4 Example.pay_rent_deleted
           _ example_reachable I).
  eapply steps_trans; [apply steps_refl|].
  exact (step_call (Create_task 1 "Pay rent" 0 None 50)
           (delete_project 1 Example.m4)).
Defined.

(** ** Completion *)

Lemma assign_keeps_completion kw t :
  String.eqb (kw_key kw) "is_completed" = false ->
  Task.is_completed (assign kw t) = Task.is_completed t
  /\ Task.completed_at (assign kw t) = Task.completed_at t.
Proof. destruct kw; simpl; intros H; try discriminate H; auto. Qed.

Lemma fold_assign_keeps_completion keep kwargs t :
  existsb (fun kw => String.eqb (kw_key kw) "is_completed") kwargs = false ->
  let t' := fold_left (fun r kw => assign kw r) (filter keep kwargs) t in
  Task.is_completed t' = Task.is_completed t
  /\ Task.completed_at t' = Task.completed_at t.
Proof.
  revert t. induction kwargs as [|kw kwargs IH]; simpl; intros t H; [auto|].
  apply orb_false_elim in H. destruct H as [H1 H2].
  destruct (keep kw); simpl; [|apply IH; exact H2].
  destruct (IH (assign kw t) H2) as [E1 E2].
  destruct (assign_keeps_completion kw t H1) as [E3 E4].
  rewrite E1, E2, E3, E4. auto.
Qed.

Lemma completion_update set task_id m :
  (forall t, completion_consistent t -> completion_consistent (set t)) ->
  completion_invariant (db m) ->
  completion_invariant (db (_backup (update_tasks set task_id m))).
Proof.
  unfold completion_invariant. intros H F. cbn.
  rewrite Forall_forall in *. intros t I. apply in_update in I.
  destruct I as (t0 & I & ->). destruct (Task.id t0 =? task_id); auto.
Qed.

(** Every call but an [update_task] that is given [is_completed] keeps
    [completed_at] non-null exactly on the completed tasks. *)
Lemma completion_invariant_exec c m :
  passes_is_completed c = false ->
  completion_invariant (db m) ->
  completion_invariant (db (state (exec c m))).
Proof.
  intros P F.
  destruct c as [name description now|pid title priority due now|mu];
    cbn [exec].
  - exact F.
  - destruct (int64 pid && int64 priority); [|exact F].
    unfold create_task. destruct (_ && _); cbn; [exact F|].
    apply Forall_app. split; [exact F|].
    constructor; [|constructor]. split; simpl; congruence.
  - unfold mutate. destruct (binds mu) eqn:B; [|exact F].
    destruct mu as [pid now|pid|tid now|tid|tid now|tid kwargs];
      cbn [run state].
    + exact F.
    + unfold completion_invariant, delete_project, Sql.delete in *. cbn.
      rewrite Forall_forall in *. intros t I. apply filter_In in I.
      apply F; tauto.
    + apply completion_update; [|exact F].
      intros t _. split; simpl; congruence.
    + apply completion_update; [|exact F].
      intros t _. split; simpl; congruence.
    + apply completion_update; [|exact F]. intros t H. exact H.
    + unfold update_task. destruct (is_empty kwargs); [exact F|].
      destruct (is_empty _); [exact F|].
      apply completion_update; [|exact F].
      intros t H. unfold completion_consistent in *.
      destruct (fold_assign_keeps_completion
                  (fun kw => key_in (kw_key kw) allowed_fields) kwargs t P)
        as [E1 E2].
      rewrite E1, E2. exact H.
Qed.

(** C1 fails on [update_task]: given [is_completed=True] it sets the flag
    of a task that was never completed and leaves [completed_at] null.
    The state is one the store reaches from a new file. *)
Theorem update_task_is_completed_breaks_invariant :
  let m := update_task 1 [kw_is_completed true] Example.m4 in
  reachable m
  /\ completion_invariant (db Example.m4)
  /\ map (fun t => (Task.id t, Task.is_completed t, Task.completed_at t))
       (tasks (db m))
     = [(1, true, None); (2, false, None)]
  /\ ~ completion_invariant (db m).
Proof.
  split; [|split; [|split]].
  - eapply steps_trans; [exact example_reachable|].
    exact (step_call (Mutate (Update_task 1 [kw_is_completed true]))
             Example.m4).
  - unfold completion_invariant, completion_consistent.
    repeat constructor; vm_compute; intros H;
      try discriminate H; exfalso; apply H; reflexivity.
  - reflexivity.
  - intros F. inversion F as [|t l [_ H] _]; subst.
    apply H; reflexivity.
Qed.

(** ** Creation *)

(** On a connection that enforces foreign keys, [create_task] for a
    project that does not exist raises and writes nothing. *)
Lemma create_task_rejected_when_enforced pid title priority due now m :
  foreign_keys m = true ->
  project_exists pid (db m) = false ->
  create_task pid title priority due now m = Raise IntegrityError m.
Proof.
  intros F P. unfold create_task. rewrite F, P. reflexivity.
Qed.

(** After the first [_backup] the connection enforces nothing: every
    [create_task] inserts its row. *)
Lemma create_task_accepted_after_backup pid title priority due now m :
  foreign_keys m = false ->
  exists t m',
    create_task pid title priority due now m = Return t m'
    /\ Task.project_id t = pid
    /\ tasks (db m') = tasks (db m) ++ [t].
Proof.
  intros F. unfold create_task. rewrite F. cbn.
  eexists. eexists. split; [reflexivity|]. split; reflexivity.
Qed.

(** C3 fails once a mutating operation has run: [create_project] ends with
    [_backup], whose new connection does not enforce foreign keys, and
    the [create_task] that follows inserts a task for project 999, which
    does not exist; [get_tasks] then lists it. *)
Theorem create_task_dangling_project_accepted :
  let m1 := snd (create_project "Home" None 10 (init empty_database [])) in
  let r := create_task 999 "x" 0 None 20 m1 in
  project_exists 999 (db m1) = false
  /\ returns r = true
  /\ tasks (db (state r))
     = [Task.mk 1 999 "x" 0 None false false 20 None None]
  /\ get_tasks 999 false (state r)
     = [Task.mk 1 999 "x" 0 None false false 20 None None].
Proof. repeat split. Qed.




(** ** The settings store *)

Section SettingsFacts.
Variables data_dir db_path backup_dir : string.

(** What [_save] writes for the defaults loads back as the defaults. *)
Lemma load_saved_default :
  Config.load
    (Config.Document (Config.asdict (Config.default db_path backup_dir)))
  = Some (Config.default db_path backup_dir).
Proof. reflexivity. Qed.

(** Failures of the [try]: a file that is not JSON, a JSON value that is
    not an object, an object with a key that is no field, an object
    without one of the two paths. *)
Lemma load_failures :
  (forall text, Config.load (Config.Garbage text) = None)
  /\ Config.load (Config.Document (Config.VList [])) = None
  /\ Config.load
       (Config.Document
          (Config.VDict [("database_path", Config.VStr db_path);
                         ("backup_path", Config.VStr backup_dir);
                         ("colour", Config.VInt 1)]))
     = None
  /\ Config.load
       (Config.Document
          (Config.VDict [("database_path", Config.VStr db_path)]))
     = None.
Proof. repeat split. Qed.

(** C8. When the settings file exists and loading it fails, whatever the
    failure, [_load_or_create] returns: the configuration is the default
    one and the file holds the defaults, which the next start loads. *)
Theorem load_failure_falls_back fs f :
  Config.config_file fs = Some f ->
  Config.load f = None ->
  let (config, fs') :=
    Config._load_or_create data_dir db_path backup_dir fs in
  config = Config.default db_path backup_dir
  /\ Config.config_file fs'
     = Some (Config.Document
               (Config.asdict (Config.default db_path backup_dir)))
  /\ Config.directories fs' = Config.directories fs
  /\ Config.load
       (Config.Document (Config.asdict (Config.default db_path backup_dir)))
     = Some (Config.default db_path backup_dir).
Proof.
  intros E L. unfold Config._load_or_create. rewrite E, L.
  repeat split.
Qed.
End SettingsFacts.

Lemma load_failure_falls_back_witness :
  let corrupt := Config.Garbage "{ database_path: " in
  let fs := Config.mk_fs (Some corrupt) ["/opt/todoui/data"] in
  Config.load corrupt = None
  /\ Config._load_or_create "/opt/todoui/data" "/opt/todoui/data/todoui.db"
       "/opt/todoui/data/backups" fs
     = (Config.default "/opt/todoui/data/todoui.db" "/opt/todoui/data/backups",
        Config.mk_fs
          (Some (Config.Document
                   (Config.asdict
                      (Config.default "/opt/todoui/data/todoui.db"
                         "/opt/todoui/data/backups"))))
          ["/opt/todoui/data"]).
Proof.
  intros corrupt fs. split; [reflexivity|].
  pose proof (load_failure_falls_back "/opt/todoui/data"
                "/opt/todoui/data/todoui.db" "/opt/todoui/data/backups"
                fs corrupt eq_refl eq_refl) as H.
  destruct (Config._load_or_create _ _ _ fs) as [config fs'].
  destruct fs' as [file dirs]. destruct H as (-> & H1 & H2 & _).
  simpl in H1, H2. rewrite H1, H2. reflexivity.
Defined.

(** * Further properties *)

(** ** Orders *)

Lemma string_leb_trans a b c :
  String.leb a b = true -> String.leb b c = true -> String.leb a c = true.
Proof.
  unfold String.leb. revert b c.
  induction a as [|x a IH]; intros [|y b] [|z c]; simpl; try congruence.
  unfold Ascii.compare.
  destruct (N.compare_spec (Ascii.N_of_ascii x) (Ascii.N_of_ascii y))
    as [E1|L1|L1],
    (N.compare_spec (Ascii.N_of_ascii y) (Ascii.N_of_ascii z))
    as [E2|L2|L2],
    (N.compare_spec (Ascii.N_of_ascii x) (Ascii.N_of_ascii z))
    as [E3|L3|L3];
    try congruence; try lia.
  apply IH.
Qed.

Lemma string_leb_false a b : String.leb a b = false -> String.leb b a = true.
Proof.
  intros H. destruct (String.leb_total a b) as [T|T]; congruence.
Qed.

Lemma null_first_leb_le a b :
  Sql.null_first_leb a b = true <-> Store.null_first_le a b.
Proof.
  destruct a, b; simpl; try tauto; try (split; [discriminate|tauto]).
  apply Z.leb_le.
Qed.

Lemma null_first_le_total a b :
  Sql.null_first_leb a b = false -> Store.null_first_le b a.
Proof.
  destruct a, b; simpl; try discriminate; try tauto.
  intros H. apply Z.leb_gt in H. lia.
Qed.

Lemma null_first_le_trans a b c :
  Store.null_first_le a b -> Store.null_first_le b c -> Store.null_first_le a c.
Proof. destruct a, b, c; simpl; try tauto; lia. Qed.

Section OrderByFacts.
Context {row : Type} (leb : row -> row -> bool).

Lemma insert_by_perm a l : Permutation (Sql.insert_by leb a l) (a :: l).
Proof.
  induction l as [|b l IH]; simpl; [reflexivity|].
  destruct (leb a b); [reflexivity|].
  rewrite IH. apply perm_swap.
Qed.

Lemma order_by_perm l : Permutation (Sql.order_by leb l) l.
Proof.
  induction l as [|a l IH]; simpl; [reflexivity|].
  rewrite insert_by_perm. constructor. exact IH.
Qed.

Lemma order_by_forall (P : row -> Prop) l :
  Forall P l -> Forall P (Sql.order_by leb l).
Proof.
  rewrite !Forall_forall. intros H r I. apply H.
  apply in_order_by in I. exact I.
Qed.
End OrderByFacts.

(** ** Projects *)

Lemma get_projects_in include_archived m p :
  In p (get_projects include_archived m) <->
  In p (projects (db m))
  /\ (include_archived = true \/ Project.is_archived p = false).
Proof.
  unfold get_projects, Sql.select.
  destruct include_archived; rewrite in_order_by.
  - intuition.
  - rewrite filter_In, negb_true_iff. intuition discriminate.
Qed.

(** X2.  [get_projects] lists each project row once, without the archived
    ones unless they are asked for, in ascending order of name. *)
Theorem get_projects_sorted include_archived m :
  StronglySorted Store.name_le (get_projects include_archived m)
  /\ Permutation (get_projects include_archived m)
       (filter (fun p => include_archived || negb (Project.is_archived p))
          (projects (db m))).
Proof.
  split.
  - unfold get_projects.
    destruct include_archived;
      apply order_by_sorted with (le := Store.name_le);
      unfold Store.name_le, project_name_leb; auto using string_leb_false;
      intros a b c; apply string_leb_trans.
  - unfold get_projects, Sql.select. destruct include_archived; simpl.
    + rewrite order_by_perm, filter_true. reflexivity.
    + apply order_by_perm.
Qed.

(** X1.  After [archive_project] a project is absent from the default
    listing of projects and present, flagged and dated, in the listing
    that includes archived projects. *)
Theorem archive_project_hides_project m p now :
  In p (projects (db m)) ->
  let m' := archive_project (Project.id p) now m in
  (forall q, In q (get_projects false m') -> Project.id q <> Project.id p)
  /\ exists q,
       In q (get_projects true m')
       /\ q = Project.mk (Project.id p) (Project.name p)
                (Project.description p) true (Project.created_at p) (Some now).
Proof.
  intros I m'. split.
  - intros q Q E. apply get_projects_in in Q. destruct Q as [Q [A|A]];
      [discriminate|].
    subst m'. unfold archive_project in Q. cbn in Q.
    apply in_update in Q. destruct Q as (q0 & _ & ->).
    destruct (Project.id q0 =? Project.id p) eqn:C.
    + discriminate A.
    + apply Z.eqb_neq in C. contradiction.
  - eexists. split; [|reflexivity].
    apply get_projects_in. split; [|auto].
    subst m'. unfold archive_project. cbn.
    apply in_update. exists p. split; [exact I|].
    rewrite Z.eqb_refl. reflexivity.
Qed.

Lemma archive_project_hides_project_witness :
  let home := Project.mk 1 "Home" None false 10 None in
  In home (projects (db Example.m4))
  /\ (forall q, In q (get_projects false (archive_project 1 40 Example.m4)) ->
                Project.id q <> 1)
  /\ exists q,
       In q (get_projects true (archive_project 1 40 Example.m4))
       /\ q = Project.mk 1 "Home" None true 10 (Some 40).
Proof.
  intros home.
  assert (I : In home (projects (db Example.m4))) by (left; reflexivity).
  split; [exact I|].
  exact (archive_project_hides_project Example.m4 home 40 I).
Defined.

(** ** Listings of tasks *)

Section FilterFacts.
Context {A : Type}.

Lemma filter_filter (f g : A -> bool) l :
  filter f (filter g l) = filter (fun a => g a && f a) l.
Proof.
  induction l as [|a l IH]; simpl; [reflexivity|].
  destruct (g a); simpl; [destruct (f a)|]; rewrite IH; reflexivity.
Qed.

Lemma filter_perm (f : A -> bool) l l' :
  Permutation l l' -> Permutation (filter f l) (filter f l').
Proof.
  induction 1 as [|a l l' P IH|a b l|l1 l2 l3 P1 IH1 P2 IH2]; simpl.
  - constructor.
  - destruct (f a); [constructor|]; exact IH.
  - destruct (f a), (f b); try reflexivity. apply perm_swap.
  - etransitivity; eassumption.
Qed.

(** A row joins with at most one row of a table whose key is unique. *)
Lemma join_one {B K} (key : B -> K) (h : B -> bool) (k : K) (a : A) l :
  NoDup (map key l) ->
  (forall b, h b = true -> key b = k) ->
  map (fun _ => a) (filter h l) = if existsb h l then [a] else [].
Proof.
  intros N H. induction l as [|b l IH]; simpl; [reflexivity|].
  inversion N as [|x xs Nx Nl]; subst.
  destruct (h b) eqn:E; simpl; [|apply IH; exact Nl].
  assert (F : forall c, In c l -> h c = false).
  { intros c Ic. destruct (h c) eqn:Ec; [|reflexivity].
    exfalso. apply Nx. rewrite (H b E), <- (H c Ec). apply in_map. exact Ic. }
  replace (filter h l) with (@nil B); [reflexivity|].
  clear -F. induction l as [|c l IH]; simpl; [reflexivity|].
  rewrite (F c) by (left; reflexivity). apply IH.
  intros d Id. apply F. right. exact Id.
Qed.

Lemma flat_map_option (g : A -> bool) l :
  flat_map (fun a => if g a then [a] else []) l = filter g l.
Proof.
  induction l as [|a l IH]; simpl; [reflexivity|].
  rewrite IH. destruct (g a); reflexivity.
Qed.
End FilterFacts.

Lemma in_join_projects_iff cond d t :
  In t (join_projects cond d) <->
  In t (tasks d)
  /\ exists p, In p (projects d)
               /\ Project.id p = Task.project_id t /\ cond t p = true.
Proof.
  unfold join_projects. rewrite in_flat_map. split.
  - intros (t0 & I & J). apply in_map_iff in J.
    destruct J as (p & -> & J). apply filter_In in J.
    destruct J as [J C]. apply andb_true_iff in C. destruct C as [C1 C2].
    apply Z.eqb_eq in C1. split; [exact I|]. exists p. auto.
  - intros (I & p & J & E & C). exists t. split; [exact I|].
    apply in_map_iff. exists p. split; [reflexivity|].
    apply filter_In. split; [exact J|].
    rewrite C, E, Z.eqb_refl. reflexivity.
Qed.

(** With distinct project ids the join is a selection of the tasks. *)
Lemma join_projects_select cond d :
  NoDup (Store.project_ids d) ->
  join_projects cond d
  = filter
      (fun t =>
         existsb (fun p => (Task.project_id t =? Project.id p) && cond t p)
           (projects d))
      (tasks d).
Proof.
  intros N. unfold join_projects. rewrite <- flat_map_option.
  apply flat_map_ext. intros t.
  apply join_one with (key := Project.id) (k := Task.project_id t);
    [exact N|].
  intros p H. apply andb_true_iff in H. destruct H as [H _].
  apply Z.eqb_eq in H. auto.
Qed.

Lemma is_some_true {A} (o : option A) : is_some o = true <-> o <> None.
Proof. destruct o; simpl; split; congruence. Qed.

(** X3.  The default listing of a project is its listing with deleted
    tasks, less the tasks whose flag [is_deleted] is set. *)
Theorem get_tasks_default_excludes_deleted pid m :
  Permutation (get_tasks pid false m)
    (filter (fun t => negb (Task.is_deleted t)) (get_tasks pid true m)).
Proof.
  unfold get_tasks, Sql.select. rewrite order_by_perm.
  rewrite (filter_perm _ _ _ (order_by_perm _ _)), filter_filter.
  reflexivity.
Qed.

Lemma get_tasks_with_due_dates_iff project_id m t :
  In t (get_tasks_with_due_dates project_id m) <->
  In t (tasks (db m))
  /\ Task.due_date t <> None
  /\ Task.is_completed t = false
  /\ Task.is_deleted t = false
  /\ match project_id with
     | Some pid => Task.project_id t = pid
     | None =>
         exists p, In p (projects (db m))
                   /\ Project.id p = Task.project_id t
                   /\ Project.is_archived p = false
     end.
Proof.
  unfold get_tasks_with_due_dates, Sql.select.
  destruct project_id as [pid|]; rewrite in_order_by.
  - rewrite filter_In, !andb_true_iff, !negb_true_iff, is_some_true,
      Z.eqb_eq. tauto.
  - rewrite in_join_projects_iff. split.
    + intros (I & p & J & E & C).
      rewrite !andb_true_iff, !negb_true_iff, is_some_true in C.
      intuition eauto.
    + intros (I & D & C & X & p & J & E & A). split; [exact I|].
      exists p. rewrite !andb_true_iff, !negb_true_iff, is_some_true.
      tauto.
Qed.

Lemma get_completed_tasks_iff project_id m t :
  In t (get_completed_tasks project_id m) <->
  In t (tasks (db m))
  /\ Task.is_completed t = true
  /\ Task.is_deleted t = false
  /\ match project_id with
     | Some pid => Task.project_id t = pid
     | None =>
         exists p, In p (projects (db m))
                   /\ Project.id p = Task.project_id t
                   /\ Project.is_archived p = false
     end.
Proof.
  unfold get_completed_tasks, Sql.select.
  destruct project_id as [pid|]; rewrite in_order_by.
  - rewrite filter_In, !andb_true_iff, !negb_true_iff, Z.eqb_eq. tauto.
  - rewrite in_join_projects_iff. split.
    + intros (I & p & J & E & C).
      rewrite !andb_true_iff, !negb_true_iff in C.
      intuition eauto.
    + intros (I & C & X & p & J & E & A). split; [exact I|].
      exists p. rewrite !andb_true_iff, !negb_true_iff. tauto.
Qed.

(** X4.  [get_tasks_with_due_dates] lists, in the ascending order of the
    column [due_date], which is the order of the ISO texts it holds,
    exactly the tasks that have a due date and are neither completed nor
    deleted: those of the given project or, when none is given, those of
    the projects that exist and are not archived. *)
Theorem get_tasks_with_due_dates_spec project_id m :
  StronglySorted Store.due_date_le (get_tasks_with_due_dates project_id m)
  /\ forall t,
       In t (get_tasks_with_due_dates project_id m) <->
       In t (tasks (db m))
       /\ Task.due_date t <> None
       /\ Task.is_completed t = false
       /\ Task.is_deleted t = false
       /\ match project_id with
          | Some pid => Task.project_id t = pid
          | None =>
              exists p, In p (projects (db m))
                        /\ Project.id p = Task.project_id t
                        /\ Project.is_archived p = false
          end.
Proof.
  split; [|intros t; apply get_tasks_with_due_dates_iff].
  unfold get_tasks_with_due_dates.
  destruct project_id;
    apply order_by_sorted with (le := Store.due_date_le);
    unfold Store.due_date_le, due_date_leb; intros;
    eauto using null_first_le_trans, null_first_le_total;
    apply null_first_leb_le; assumption.
Qed.

(** X5.  [get_completed_tasks] lists, latest completion first, exactly
    the tasks that are completed and not deleted, of the given project or
    of the projects that exist and are not archived; a completed task
    without [completed_at] comes after every task that has one. *)
Theorem get_completed_tasks_spec project_id m :
  StronglySorted Store.completed_at_ge (get_completed_tasks project_id m)
  /\ forall t,
       In t (get_completed_tasks project_id m) <->
       In t (tasks (db m))
       /\ Task.is_completed t = true
       /\ Task.is_deleted t = false
       /\ match project_id with
          | Some pid => Task.project_id t = pid
          | None =>
              exists p, In p (projects (db m))
                        /\ Project.id p = Task.project_id t
                        /\ Project.is_archived p = false
          end.
Proof.
  split; [|intros t; apply get_completed_tasks_iff].
  unfold get_completed_tasks.
  destruct project_id;
    apply order_by_sorted with (le := Store.completed_at_ge);
    unfold Store.completed_at_ge, completed_at_desc_leb; intros;
    eauto using null_first_le_trans, null_first_le_total;
    apply null_first_leb_le; assumption.
Qed.

(** ** Ids *)

Lemma exec_project_ids c m :
  let d := db m in
  let d' := db (state (exec c m)) in
  (Store.project_ids d' = Store.project_ids d ++ [seq_projects d + 1]
   /\ seq_projects d' = seq_projects d + 1)
  \/ (seq_projects d' = seq_projects d
      /\ exists keep,
           Store.project_ids d' = map Project.id (filter keep (projects d))).
Proof.
  assert (same : forall l : list Project.t,
             map Project.id l = map Project.id (filter (fun _ => true) l)).
  { intros l. rewrite filter_true. reflexivity. }
  assert (upd : forall set tid,
             Store.project_ids (db (_backup (update_tasks set tid m)))
             = map Project.id (filter (fun _ => true) (projects (db m)))).
  { intros set tid. unfold Store.project_ids, update_tasks. cbn. apply same. }
  destruct c as [name description now|pid title priority due now|mu];
    cbn [exec].
  - left. unfold Store.project_ids. cbn. rewrite map_app. auto.
  - destruct (int64 pid && int64 priority);
      [|right; (split; [reflexivity|]); eexists; apply same].
    unfold create_task. destruct (_ && _); cbn;
      right; (split; [reflexivity|]); eexists; apply same.
  - unfold mutate. destruct (binds mu);
      [|right; (split; [reflexivity|]); eexists; apply same].
    destruct mu as [pid now|pid|tid now|tid|tid now|tid kwargs];
      cbn [run state]; right.
    + split; [reflexivity|]. eexists.
      unfold Store.project_ids, archive_project. cbn.
      rewrite map_update by reflexivity. apply same.
    + split; [reflexivity|]. eexists. reflexivity.
    + split; [reflexivity|]. eexists. apply upd.
    + split; [reflexivity|]. eexists. apply upd.
    + split; [reflexivity|]. eexists. apply upd.
    + destruct (update_task_cases tid kwargs m) as [E|(set & E & H)];
        rewrite E; (split; [reflexivity|]); eexists; [apply same|apply upd].
Qed.

Lemma project_ids_wf_step m m' :
  step m m' -> Store.project_ids_wf (db m) -> Store.project_ids_wf (db m').
Proof.
  intros S [N F]. destruct S as [c m|m]; [|split; assumption].
  destruct (exec_project_ids c m) as [[E Q]|[Q [keep E]]];
    unfold Store.project_ids_wf; rewrite E, Q.
  - split.
    + apply NoDup_app. repeat split; auto.
      * constructor; [intros []|constructor].
      * intros i I [<-|[]]. rewrite Forall_forall in F.
        specialize (F _ I). lia.
    + apply Forall_app. split.
      * eapply Forall_impl; [|exact F]. cbv beta. intros; lia.
      * constructor; [lia|constructor].
  - split.
    + apply NoDup_map_filter; exact N.
    + rewrite Forall_forall in *. intros i I. apply F.
      eapply in_map_filter; exact I.
Qed.

Lemma project_ids_wf_steps m m' :
  steps m m' -> Store.project_ids_wf (db m) -> Store.project_ids_wf (db m').
Proof.
  induction 1 as [|m1 m2 m3 S IH St]; [auto|].
  intros W. eapply project_ids_wf_step; eauto.
Qed.

Lemma project_ids_wf_reachable m :
  reachable m -> Store.project_ids_wf (db m).
Proof.
  intros R. apply (project_ids_wf_steps _ _ R). split; constructor.
Qed.

Lemma seq_steps m m' :
  steps m m' ->
  seq_tasks (db m) <= seq_tasks (db m')
  /\ seq_projects (db m) <= seq_projects (db m').
Proof.
  induction 1 as [|m1 m2 m3 S IH St]; [lia|].
  destruct St as [c m|m]; [|exact IH].
  destruct (exec_task_ids c m) as [[_ Q]|[Q _]],
           (exec_project_ids c m) as [[_ Q']|[Q' _]]; lia.
Qed.

(** X6.  Ids are not reused.  In a store that started on a new file, the
    id that [create_task] gives a task is larger than the id of every
    task the store has held, deleted with its project or not; the same
    holds of [create_project]. *)
Theorem created_ids_are_new m m' :
  reachable m ->
  steps m m' ->
  (forall pid title priority due now t m'',
     create_task pid title priority due now m' = Return t m'' ->
     forall t0, In t0 (tasks (db m)) -> Task.id t0 < Task.id t)
  /\ (forall name description now p0,
        In p0 (projects (db m)) ->
        Project.id p0
        < Project.id (fst (create_project name description now m'))).
Proof.
  intros R S. destruct (seq_steps _ _ S) as [St Sp]. split.
  - intros pid title priority due now t m'' E t0 I.
    destruct (task_ids_wf_reachable m R) as [_ F].
    rewrite Forall_forall in F.
    assert (Task.id t0 <= seq_tasks (db m)).
    { apply F. apply in_map. exact I. }
    unfold create_task in E. destruct (_ && _); [discriminate|].
    inversion E; subst. simpl. lia.
  - intros name description now p0 I.
    destruct (project_ids_wf_reachable m R) as [_ F].
    rewrite Forall_forall in F.
    assert (Project.id p0 <= seq_projects (db m)).
    { apply F. apply in_map. exact I. }
    simpl. lia.
Qed.

Lemma created_ids_are_new_witness :
  reachable Example.m4
  /\ steps Example.m4 (delete_project 1 Example.m4)
  /\ forall t m'',
       create_task 5 "again" 0 None 60 (delete_project 1 Example.m4)
       = Return t m'' ->
       forall t0, In t0 (tasks (db Example.m4)) -> Task.id t0 < Task.id t.
Proof.
  assert (S : steps Example.m4 (delete_project 1 Example.m4)).
  { eapply steps_trans; [apply steps_refl|].
    exact (step_call (Mutate (Delete_project 1)) Example.m4). }
  split; [exact example_reachable|]. split; [exact S|].
  intros t m''.
  exact (proj1 (created_ids_are_new Example.m4 _ example_reachable S)
           5 "again" 0 None 60 t m'').
Defined.

(** X7.  In a store that started on a new file no listing shows a task
    twice. *)
Theorem listings_without_duplicates m :
  reachable m ->
  (forall pid include_deleted,
     NoDup (map Task.id (get_tasks pid include_deleted m)))
  /\ (forall pid, NoDup (map Task.id (get_tasks_with_due_dates pid m)))
  /\ (forall pid, NoDup (map Task.id (get_completed_tasks pid m))).
Proof.
  intros R.
  destruct (task_ids_wf_reachable m R) as [Nt _].
  destruct (project_ids_wf_reachable m R) as [Np _].
  assert (sel : forall leb keep,
             NoDup (map Task.id
                      (Sql.order_by leb (filter keep (tasks (db m)))))).
  { intros leb keep.
    apply Permutation_NoDup with (map Task.id (filter keep (tasks (db m)))).
    - apply Permutation_map. symmetry. apply order_by_perm.
    - apply NoDup_map_filter. exact Nt. }
  split; [|split].
  - intros pid [|]; apply sel.
  - intros [pid|]; unfold get_tasks_with_due_dates;
      [apply sel|rewrite join_projects_select by exact Np; apply sel].
  - intros [pid|]; unfold get_completed_tasks;
      [apply sel|rewrite join_projects_select by exact Np; apply sel].
Qed.

Lemma listings_without_duplicates_witness :
  reachable Example.m4
  /\ NoDup (map Task.id (get_tasks 1 true Example.m4))
  /\ NoDup (map Task.id (get_tasks_with_due_dates None Example.m4)).
Proof.
  split; [exact example_reachable|].
  destruct (listings_without_duplicates Example.m4 example_reachable)
    as (G & D & _).
  split; [exact (G 1 true)|exact (D None)].
Defined.

(** ** Updates of tasks *)

Lemma update_same {row} (set : row -> row) cond table :
  (forall r, In r table -> cond r = true -> set r = r) ->
  Sql.update set cond table = table.
Proof.
  intros H. unfold Sql.update. rewrite <- (map_id table) at 2.
  apply map_ext_in. intros r I. destruct (cond r) eqn:E; auto.
Qed.

Lemma columns_kept_refl ks t : Store.columns_kept ks t t.
Proof. unfold Store.columns_kept. tauto. Qed.

Lemma assign_columns_kept kw t : Store.columns_kept [kw_key kw] t (assign kw t).
Proof.
  unfold Store.columns_kept.
  destruct kw; simpl; repeat split; auto; intros H; exfalso; apply H; auto.
Qed.

Lemma columns_kept_trans ks1 ks2 t1 t2 t3 :
  Store.columns_kept ks1 t1 t2 -> Store.columns_kept ks2 t2 t3 ->
  Store.columns_kept (ks1 ++ ks2) t1 t3.
Proof.
  unfold Store.columns_kept.
  intros (A1 & A2 & A3 & A4 & A5 & A6 & A7 & A8 & A9 & A10)
         (B1 & B2 & B3 & B4 & B5 & B6 & B7 & B8 & B9 & B10).
  repeat split; try congruence;
    intros N; rewrite in_app_iff in N;
    [rewrite B6, A6|rewrite B7, A7|rewrite B8, A8|rewrite B9, A9
     |rewrite B10, A10]; tauto.
Qed.

Lemma columns_kept_incl ks ks' t t' :
  incl ks ks' -> Store.columns_kept ks t t' -> Store.columns_kept ks' t t'.
Proof.
  unfold Store.columns_kept. intros I H.
  repeat split; try tauto; intros N; apply H; intros J; apply N, I, J.
Qed.

Lemma fold_assign_columns_kept keep kwargs t :
  Store.columns_kept (Store.keys kwargs) t
    (fold_left (fun r kw => assign kw r) (filter keep kwargs) t).
Proof.
  revert t. induction kwargs as [|kw kwargs IH]; intros t.
  - apply columns_kept_refl.
  - simpl. destruct (keep kw); simpl.
    + change (kw_key kw :: Store.keys kwargs)
        with ([kw_key kw] ++ Store.keys kwargs).
      eapply columns_kept_trans; [apply assign_columns_kept|apply IH].
    + eapply columns_kept_incl; [|apply IH].
      intros k I. right. exact I.
Qed.

(** The rows after [update_task]: each row, rewritten when its id is the
    one addressed, keeps what the keywords leave alone. *)
Lemma update_task_rows task_id kwargs m :
  exists set,
    tasks (db (update_task task_id kwargs m))
    = Sql.update set (fun t => Task.id t =? task_id) (tasks (db m))
    /\ forall t, Store.columns_kept (Store.keys kwargs) t (set t).
Proof.
  unfold update_task. destruct (is_empty kwargs).
  - exists (fun t => t). split; [|intros; apply columns_kept_refl].
    symmetry. apply update_same. reflexivity.
  - destruct (is_empty _).
    + exists (fun t => t). split; [|intros; apply columns_kept_refl].
      symmetry. apply update_same. reflexivity.
    + eexists. split; [reflexivity|].
      intros t. apply fold_assign_columns_kept.
Qed.

(** X8.  [update_task] changes only the columns it is given, and only in
    the rows with the given id: no project row changes, no task row is
    added or removed, and [id], [project_id], [created_at],
    [completed_at] and [deleted_at] are never written. *)
Theorem update_task_changes_named_columns_only task_id kwargs m :
  let m' := update_task task_id kwargs m in
  projects (db m') = projects (db m)
  /\ Forall2
       (fun t t' =>
          Store.columns_kept (Store.keys kwargs) t t'
          /\ (Task.id t <> task_id -> t' = t))
       (tasks (db m)) (tasks (db m')).
Proof.
  cbv zeta. split.
  - destruct (update_task_cases task_id kwargs m) as [E|(set & E & _)];
      rewrite E; reflexivity.
  - destruct (update_task_rows task_id kwargs m) as (set & E & K).
    rewrite E. clear E. unfold Sql.update.
    induction (tasks (db m)) as [|t l IH]; simpl; [constructor|].
    constructor; [|exact IH].
    destruct (Task.id t =? task_id) eqn:C.
    + apply Z.eqb_eq in C. split; [apply K|]. intros N. contradiction.
    + split; [apply columns_kept_refl|reflexivity].
Qed.

(** X9.  A due date given to [update_task] is the due date read back:
    every listing of the project shows the task with the new due date,
    [None] clearing it, and the rest of the row as it was. *)
Theorem update_task_due_date_round_trip m t due :
  In t (tasks (db m)) ->
  let m' := update_task (Task.id t) [kw_due_date due] m in
  In (Task.set_due_date due t)
    (get_tasks (Task.project_id t) (Task.is_deleted t) m')
  /\ forall pid include_deleted t',
       In t' (get_tasks pid include_deleted m') ->
       Task.id t' = Task.id t -> Task.due_date t' = due.
Proof.
  intros I m'.
  assert (E : tasks (db m')
              = Sql.update (Task.set_due_date due)
                  (fun r => Task.id r =? Task.id t) (tasks (db m)))
    by reflexivity.
  split.
  - assert (J : In (Task.set_due_date due t) (tasks (db m'))).
    { rewrite E. apply in_update. exists t. split; [exact I|].
      rewrite Z.eqb_refl. reflexivity. }
    unfold get_tasks, Sql.select.
    destruct (Task.is_deleted t) eqn:D; rewrite in_order_by, filter_In;
      (split; [exact J|]); simpl; rewrite Z.eqb_refl; [reflexivity|].
    rewrite D. reflexivity.
  - intros pid incl t' L Q. apply get_tasks_in in L. destruct L as [L _].
    rewrite E in L. apply in_update in L. destruct L as (r & _ & ->).
    destruct (Task.id r =? Task.id t) eqn:C; [reflexivity|].
    apply Z.eqb_neq in C. contradiction.
Qed.

Lemma update_task_due_date_round_trip_witness :
  In Example.pay_rent_deleted (tasks (db Example.m4))
  /\ In (Task.set_due_date None Example.pay_rent_deleted)
       (get_tasks 1 true (update_task 2 [kw_due_date None] Example.m4)).
Proof.
  assert (I : In Example.pay_rent_deleted (tasks (db Example.m4))).
  { right; left; reflexivity. }
  split; [exact I|].
  exact (proj1 (update_task_due_date_round_trip Example.m4
                  Example.pay_rent_deleted None I)).
Defined.

(** X10.  [uncomplete_task] undoes [complete_task]: on a task that was
    not completed, the two calls leave every row as it was. *)
Theorem uncomplete_undoes_complete m task_id now :
  (forall t, In t (tasks (db m)) -> Task.id t = task_id ->
             Task.is_completed t = false /\ Task.completed_at t = None) ->
  db (uncomplete_task task_id (complete_task task_id now m)) = db m.
Proof.
  intros H. unfold uncomplete_task, complete_task, update_tasks, with_tasks.
  cbn [db tasks projects seq_projects seq_tasks _backup with_db].
  rewrite update_update by reflexivity.
  rewrite update_same; [destruct (db m); reflexivity|].
  intros r I C. apply Z.eqb_eq in C. destruct (H r I C) as [E1 E2].
  destruct r; simpl in *; subst; reflexivity.
Qed.

Lemma uncomplete_undoes_complete_witness :
  (forall t, In t (tasks (db Example.m4)) -> Task.id t = 1 ->
             Task.is_completed t = false /\ Task.completed_at t = None)
  /\ db (uncomplete_task 1 (complete_task 1 70 Example.m4)) = db Example.m4.
Proof.
  assert (H : forall t, In t (tasks (db Example.m4)) -> Task.id t = 1 ->
                        Task.is_completed t = false
                        /\ Task.completed_at t = None).
  { intros t [<-|[<-|[]]] _; split; reflexivity. }
  split; [exact H|].
  exact (uncomplete_undoes_complete Example.m4 1 70 H).
Defined.

(** ** Soft deletion, archiving, hard deletion *)

(** X11.  After [delete_task] the task is in no listing but the listing
    of its project with deleted tasks, where it carries the flag and the
    time of the call. *)
Theorem delete_task_hides_task m t now :
  In t (tasks (db m)) ->
  let m' := delete_task (Task.id t) now m in
  (forall pid, ~ In (Task.id t) (map Task.id (get_tasks pid false m')))
  /\ (forall pid,
        ~ In (Task.id t) (map Task.id (get_tasks_with_due_dates pid m')))
  /\ (forall pid,
        ~ In (Task.id t) (map Task.id (get_completed_tasks pid m')))
  /\ In (Task.set_deleted_at (Some now) (Task.set_is_deleted true t))
       (get_tasks (Task.project_id t) true m').
Proof.
  intros I m'.
  assert (E : tasks (db m')
              = Sql.update
                  (fun r => Task.set_deleted_at (Some now)
                              (Task.set_is_deleted true r))
                  (fun r => Task.id r =? Task.id t) (tasks (db m)))
    by reflexivity.
  assert (D : forall t', In t' (tasks (db m')) -> Task.id t' = Task.id t ->
                         Task.is_deleted t' = true).
  { intros t' J Q. rewrite E in J. apply in_update in J.
    destruct J as (r & _ & ->).
    destruct (Task.id r =? Task.id t) eqn:C; [reflexivity|].
    apply Z.eqb_neq in C. contradiction. }
  split; [|split; [|split]].
  - intros pid L. apply in_map_iff in L. destruct L as (t' & Q & L).
    unfold get_tasks, Sql.select in L.
    rewrite in_order_by, filter_In in L. destruct L as [L C].
    rewrite (D t' L Q) in C. rewrite andb_false_r in C. discriminate.
  - intros pid L. apply in_map_iff in L. destruct L as (t' & Q & L).
    apply get_tasks_with_due_dates_iff in L.
    destruct L as (L & _ & _ & X & _). rewrite (D t' L Q) in X. discriminate.
  - intros pid L. apply in_map_iff in L. destruct L as (t' & Q & L).
    apply get_completed_tasks_iff in L.
    destruct L as (L & _ & X & _). rewrite (D t' L Q) in X. discriminate.
  - unfold get_tasks, Sql.select. rewrite in_order_by, filter_In. split.
    + rewrite E. apply in_update. exists t. split; [exact I|].
      rewrite Z.eqb_refl. reflexivity.
    + simpl. apply Z.eqb_refl.
Qed.

Lemma delete_task_hides_task_witness :
  let buy_milk :=
    Task.mk 1 1 "Buy milk" 0 (Some 500) false false 20 None None in
  In buy_milk (tasks (db Example.m4))
  /\ (forall pid,
        ~ In 1 (map Task.id
                  (get_tasks pid false (delete_task 1 80 Example.m4))))
  /\ In (Task.mk 1 1 "Buy milk" 0 (Some 500) false true 20 None (Some 80))
       (get_tasks 1 true (delete_task 1 80 Example.m4)).
Proof.
  intros buy_milk.
  assert (I : In buy_milk (tasks (db Example.m4))) by (left; reflexivity).
  split; [exact I|].
  destruct (delete_task_hides_task Example.m4 buy_milk 80 I)
    as (G & _ & _ & L).
  split; [exact G|exact L].
Defined.

(** X12.  After [archive_project] the listings over all projects show no
    task of the project, while the task table is untouched: the listings
    of the project itself are as before. *)
Theorem archive_project_hides_tasks pid now m :
  let m' := archive_project pid now m in
  (forall t, In t (get_tasks_with_due_dates None m') ->
             Task.project_id t <> pid)
  /\ (forall t, In t (get_completed_tasks None m') ->
                Task.project_id t <> pid)
  /\ (forall include_deleted,
        get_tasks pid include_deleted m' = get_tasks pid include_deleted m)
  /\ get_tasks_with_due_dates (Some pid) m'
     = get_tasks_with_due_dates (Some pid) m
  /\ get_completed_tasks (Some pid) m' = get_completed_tasks (Some pid) m.
Proof.
  cbv zeta.
  assert (A : forall p, In p (projects (db (archive_project pid now m))) ->
                        Project.id p = pid -> Project.is_archived p = true).
  { intros p J Q. unfold archive_project in J. cbn in J.
    apply in_update in J. destruct J as (p0 & _ & ->).
    destruct (Project.id p0 =? pid) eqn:C; [reflexivity|].
    apply Z.eqb_neq in C. contradiction. }
  split; [|split; [|repeat split]].
  - intros t L Q. apply get_tasks_with_due_dates_iff in L.
    destruct L as (_ & _ & _ & _ & p & J & E & X).
    rewrite (A p J) in X; congruence.
  - intros t L Q. apply get_completed_tasks_iff in L.
    destruct L as (_ & _ & _ & p & J & E & X).
    rewrite (A p J) in X; congruence.
Qed.

(** X13.  [delete_project] removes the project row and leaves the other
    projects as they are, their listings of tasks included. *)
Theorem delete_project_leaves_other_projects pid pid' m :
  pid' <> pid ->
  let m' := delete_project pid m in
  (forall p, In p (projects (db m')) <->
             In p (projects (db m)) /\ Project.id p <> pid)
  /\ (forall include_deleted,
        get_tasks pid' include_deleted m' = get_tasks pid' include_deleted m)
  /\ get_tasks_with_due_dates (Some pid') m'
     = get_tasks_with_due_dates (Some pid') m
  /\ get_completed_tasks (Some pid') m' = get_completed_tasks (Some pid') m.
Proof.
  intros N m'.
  assert (F : forall keep : Task.t -> bool,
             filter (fun t => (Task.project_id t =? pid') && keep t)
               (tasks (db m'))
             = filter (fun t => (Task.project_id t =? pid') && keep t)
                 (tasks (db m))).
  { intros keep. subst m'. unfold delete_project, Sql.delete. cbn.
    rewrite filter_filter. apply filter_ext. intros t.
    destruct (Task.project_id t =? pid') eqn:C1; simpl;
      [|rewrite andb_false_r; reflexivity].
    apply Z.eqb_eq in C1.
    destruct (Task.project_id t =? pid) eqn:C2; [|reflexivity].
    apply Z.eqb_eq in C2. congruence. }
  split; [|split; [|split]].
  - intros p. subst m'. unfold delete_project, Sql.delete. cbn.
    rewrite filter_In, negb_true_iff, Z.eqb_neq. tauto.
  - intros [|]; unfold get_tasks, Sql.select; f_equal.
    + etransitivity; [|etransitivity]; [|apply (F (fun _ => true))|];
        apply filter_ext; intros t; rewrite andb_true_r; reflexivity.
    + apply F.
  - unfold get_tasks_with_due_dates, Sql.select. f_equal.
    etransitivity; [|etransitivity];
      [|apply (F (fun t => is_some (Task.due_date t)
                           && negb (Task.is_completed t)
                           && negb (Task.is_deleted t)))|];
      apply filter_ext; intros t; rewrite !andb_assoc; reflexivity.
  - unfold get_completed_tasks, Sql.select. f_equal.
    etransitivity; [|etransitivity];
      [|apply (F (fun t => Task.is_completed t && negb (Task.is_deleted t)))|];
      apply filter_ext; intros t; rewrite !andb_assoc; reflexivity.
Qed.

Lemma delete_project_leaves_other_projects_witness :
  let m := snd (create_project "Work" None 90 Example.m4) in
  1 <> 2
  /\ (forall include_deleted,
        get_tasks 1 include_deleted (delete_project 2 m)
        = get_tasks 1 include_deleted m).
Proof.
  intros m. assert (N : 1 <> 2) by discriminate.
  split; [exact N|].
  exact (proj1 (proj2 (delete_project_leaves_other_projects 2 1 m N))).
Defined.

(** ** Backups *)

Lemma exec_backup c m :
  if returns (exec c m) && negb (skips c)
  then backups (state (exec c m)) = db (state (exec c m)) :: backups m
       /\ foreign_keys (state (exec c m)) = false
  else state (exec c m) = m.
Proof.
  destruct c as [name description now|pid title priority due now|mu];
    cbn [exec skips].
  - split; reflexivity.
  - destruct (int64 pid && int64 priority); [|reflexivity].
    unfold create_task.
    destruct (foreign_keys m && negb (project_exists pid (db m)));
      [|split]; reflexivity.
  - unfold mutate. destruct (binds mu) eqn:B.
    + destruct mu as [pid now|pid|tid now|tid|tid now|tid kwargs];
        cbn [run state returns andb negb]; try (split; reflexivity).
      unfold update_task.
      destruct (is_empty
                  (filter (fun kw => key_in (kw_key kw) allowed_fields)
                     kwargs)) eqn:E.
      * cbn [negb]. destruct (is_empty kwargs); reflexivity.
      * cbn [negb]. destruct kwargs as [|kw kwargs]; [discriminate E|].
        split; reflexivity.
    + reflexivity.
Qed.


(** X15.  In a store that started on a new file the copy made last is a
    copy of the file as it is: nothing is committed without being copied
    afterwards. *)
Theorem latest_backup_is_current m :
  reachable m -> Store.backup_current m.
Proof.
  unfold reachable. intros R.
  remember (init empty_database []) as m0 eqn:E0.
  induction R as [|m1 m2 m3 S IH St]; [subst; reflexivity|].
  specialize (IH E0). destruct St as [c m2|m2]; [|exact IH].
  pose proof (exec_backup c m2) as Q.
  destruct (returns (exec c m2) && negb (skips c)).
  - destruct Q as [Q _]. unfold Store.backup_current. rewrite Q. reflexivity.
  - rewrite Q. exact IH.
Qed.

Lemma example_m3_reachable : reachable Example.m3.
Proof.
  unfold reachable.
  apply steps_trans with Example.m2;
    [|exact (step_call (Create_task 1 "Pay rent" (-5) (Some 400) 21)
               Example.m2)].
  apply steps_trans with Example.m1;
    [|exact (step_call (Create_task 1 "Buy milk" 0 (Some 500) 20)
               Example.m1)].
  apply steps_trans with Example.m0;
    [|exact (step_call (Create_project "Home" None 10) Example.m0)].
  apply steps_refl.
Qed.

Lemma latest_backup_is_current_witness :
  reachable Example.m4 /\ Store.backup_current Example.m4.
Proof.
  split; [exact example_reachable|].
  exact (latest_backup_is_current Example.m4 example_reachable).
Defined.

(** ** Creation of tasks *)

(** X16.  The call of [create_task] has three outcomes.  It raises
    [OverflowError] when [project_id] or [priority] does not fit 64
    bits; it raises [IntegrityError] when they fit, the connection
    enforces foreign keys and the project does not exist; in both cases
    nothing is written or copied.  Otherwise it returns the new task,
    not completed and not deleted, which the default listing of its
    project shows, and the rows that were there stay. *)
Theorem create_task_outcome pid title priority due now m :
  match exec (Create_task pid title priority due now) m with
  | Raise OverflowError m' =>
      m' = m /\ (int64 pid = false \/ int64 priority = false)
  | Raise IntegrityError m' =>
      m' = m
      /\ int64 pid = true /\ int64 priority = true
      /\ foreign_keys m = true /\ project_exists pid (db m) = false
  | Return _ m' =>
      let t := Task.mk (seq_tasks (db m) + 1) pid title priority due
                 false false now None None in
      int64 pid = true /\ int64 priority = true
      /\ (foreign_keys m = false \/ project_exists pid (db m) = true)
      /\ create_task pid title priority due now m = Return t m'
      /\ In t (get_tasks pid false m')
      /\ projects (db m') = projects (db m)
      /\ forall t0, In t0 (tasks (db m)) -> In t0 (tasks (db m'))
  end.
Proof.
  cbn [exec]. unfold create_task.
  destruct (int64 pid) eqn:I1, (int64 priority) eqn:I2; cbn [andb];
    try (split; [reflexivity|]; auto; fail).
  destruct (foreign_keys m) eqn:F, (project_exists pid (db m)) eqn:P;
    cbn [andb negb]; auto;
    cbv zeta; (split; [reflexivity|]); (split; [reflexivity|]);
    (split; [auto|]); (split; [reflexivity|]);
    (split; [|split; [reflexivity|intros; apply in_or_app; auto]]);
    unfold get_tasks, Sql.select; rewrite in_order_by, filter_In;
    (split; [apply in_or_app; right; left; reflexivity
            |simpl; rewrite Z.eqb_refl; reflexivity]).
Qed.

(** ** What stays of a task *)

Lemma same_origin_refl t : Store.same_origin t t.
Proof. unfold Store.same_origin. tauto. Qed.

Lemma same_origin_trans t1 t2 t3 :
  Store.same_origin t1 t2 -> Store.same_origin t2 t3 ->
  Store.same_origin t1 t3.
Proof. unfold Store.same_origin. intuition congruence. Qed.

Lemma update_rows_origin set cond l t' :
  (forall t, Task.id (set t) = Task.id t /\ Store.same_origin t (set t)) ->
  In t' (Sql.update set cond l) ->
  exists t, In t l /\ Task.id t' = Task.id t /\ Store.same_origin t t'.
Proof.
  intros H I. apply in_update in I. destruct I as (t & I & ->).
  exists t. split; [exact I|].
  destruct (cond t); [apply H|]. split; [reflexivity|apply same_origin_refl].
Qed.

Lemma exec_task_rows c m t' :
  In t' (tasks (db (state (exec c m)))) ->
  (exists t, In t (tasks (db m))
             /\ Task.id t' = Task.id t /\ Store.same_origin t t')
  \/ Task.id t' = seq_tasks (db m) + 1.
Proof.
  assert (old : In t' (tasks (db m)) ->
                exists t, In t (tasks (db m))
                          /\ Task.id t' = Task.id t
                          /\ Store.same_origin t t').
  { intros I. exists t'. split; [exact I|].
    split; [reflexivity|apply same_origin_refl]. }
  destruct c as [name description now|pid title priority due now|mu];
    cbn [exec].
  - intros I. left. apply old. exact I.
  - destruct (int64 pid && int64 priority);
      [|intros I; left; apply old; exact I].
    unfold create_task. destruct (_ && _); cbn; intros I.
    + left. apply old. exact I.
    + apply in_app_or in I. destruct I as [I|[<-|[]]]; [left; auto|].
      right. reflexivity.
  - unfold mutate. destruct (binds mu); [|intros I; left; apply old; exact I].
    destruct mu as [pid now|pid|tid now|tid|tid now|tid kwargs];
      cbn [run state]; intros I; left.
    + apply old. exact I.
    + apply old. unfold delete_project, Sql.delete in I. cbn in I.
      apply filter_In in I. tauto.
    + eapply update_rows_origin; [|exact I].
      intros t. unfold Store.same_origin. simpl. tauto.
    + eapply update_rows_origin; [|exact I].
      intros t. unfold Store.same_origin. simpl. tauto.
    + eapply update_rows_origin; [|exact I].
      intros t. unfold Store.same_origin. simpl.
      repeat split; congruence.
    + destruct (update_task_rows tid kwargs m) as (set & E & K).
      rewrite E in I. eapply update_rows_origin; [|exact I].
      intros t. destruct (K t) as (K1 & K2 & K3 & _ & K5 & _).
      unfold Store.same_origin. rewrite K5. tauto.
Qed.

(** X17.  Whatever a store that started on a new file goes through, a
    task keeps its project and its creation time for as long as its row
    exists, and a [deleted_at] once set is never cleared. *)
Theorem task_origin_is_kept m m' t t' :
  reachable m ->
  steps m m' ->
  In t (tasks (db m)) ->
  In t' (tasks (db m')) ->
  Task.id t' = Task.id t ->
  Store.same_origin t t'.
Proof.
  intros R S I.
  destruct (task_ids_wf_reachable m R) as [N F].
  assert (Inv : (forall t', In t' (tasks (db m')) -> Task.id t' = Task.id t ->
                            Store.same_origin t t')
                /\ Task.id t <= seq_tasks (db m')).
  { induction S as [|m1 m2 m3 S IH St].
    - split.
      + intros t0 I0 Q. assert (t0 = t) by (eapply NoDup_map_eq; eauto).
        subst. apply same_origin_refl.
      + rewrite Forall_forall in F. apply F. apply in_map. exact I.
    - destruct (IH R I N F) as [IH1 IH2]. destruct St as [c m2|m2];
        [|split; assumption].
      split.
      + intros t0 I0 Q. apply exec_task_rows in I0.
        destruct I0 as [(t1 & I1 & Q1 & O)|Q0]; [|lia].
        eapply same_origin_trans; [|exact O]. apply IH1; congruence.
      + destruct (exec_task_ids c m2) as [[_ Q]|[Q _]]; lia. }
  intros I' Q. apply Inv; assumption.
Qed.

Lemma task_origin_is_kept_witness :
  let buy_milk :=
    Task.mk 1 1 "Buy milk" 0 (Some 500) false false 20 None None in
  reachable Example.m3
  /\ steps Example.m3 (update_task 1 [kw_title "Buy oat milk"] Example.m3)
  /\ Store.same_origin buy_milk
       (Task.mk 1 1 "Buy oat milk" 0 (Some 500) false false 20 None None).
Proof.
  intros buy_milk.
  assert (S : steps Example.m3
                (update_task 1 [kw_title "Buy oat milk"] Example.m3)).
  { eapply steps_trans; [apply steps_refl|].
    exact (step_call (Mutate (Update_task 1 [kw_title "Buy oat milk"]))
             Example.m3). }
  pose proof example_m3_reachable as R.
  split; [exact R|]. split; [exact S|].
  apply (task_origin_is_kept Example.m3 _ buy_milk _ R S).
  - left; reflexivity.
  - left; reflexivity.
  - reflexivity.
Defined.

(** ** The settings store, further *)




(** X20.  Starting twice is starting once: whatever the settings file
    held, the start that follows a start loads the same configuration and
    leaves the file and the directories as it found them. *)
Theorem startup_is_idempotent data_dir db_path backup_dir fs :
  let (config, fs') :=
    Config._load_or_create data_dir db_path backup_dir fs in
  Config._load_or_create data_dir db_path backup_dir fs' = (config, fs').
Proof.
  unfold Config._load_or_create.
  destruct (Config.config_file fs) as [f|] eqn:E.
  - destruct (Config.load f) as [c|] eqn:L.
    + rewrite E, L. reflexivity.
    + reflexivity.
  - reflexivity.
Qed.

Lemma is_field_cases key :
  ConfigManager.is_field key = true ->
  key = "database_path" \/ key = "backup_path" \/ key = "frame_count"
  \/ key = "default_priority" \/ key = "theme" \/ key = "frame_projects".
Proof.
  unfold ConfigManager.is_field, Config.field_names. simpl.
  rewrite !orb_true_iff, !String.eqb_eq. intuition discriminate.
Qed.

Lemma getattr_setattr key v c :
  ConfigManager.is_field key = true ->
  ConfigManager.getattr key (ConfigManager.setattr key v c) = Some v.
Proof.
  intros H. apply is_field_cases in H.
  destruct H as [->|[->|[->|[->|[->| ->]]]]]; reflexivity.
Qed.

Ltac case_key k :=
  repeat match goal with
         | |- context [String.eqb k ?s] =>
             destruct (String.eqb_spec k s) as [->|?]
         end.

Lemma getattr_setattr_other key key' v c :
  key <> key' ->
  ConfigManager.getattr key (ConfigManager.setattr key' v c)
  = ConfigManager.getattr key c.
Proof.
  intros N. unfold ConfigManager.setattr. case_key key'; try reflexivity;
    unfold ConfigManager.getattr; case_key key; try reflexivity; congruence.
Qed.

(** X21.  [update] writes what it sets.  When it returns, the settings
    file loads back as the configuration it leaves; each field named by
    a keyword holds the value given; every other field is as before;
    a keyword that names no attribute changes nothing. *)
Theorem update_persists class_attribute kwargs c fs c' fs' :
  NoDup (map fst kwargs) ->
  ConfigManager.update class_attribute kwargs c fs = Some (c', fs') ->
  Config.config_file fs' = Some (Config.Document (Config.asdict c'))
  /\ Config.load (Config.Document (Config.asdict c')) = Some c'
  /\ Config.directories fs' = Config.directories fs
  /\ (forall key v, In (key, v) kwargs -> ConfigManager.is_field key = true ->
                    ConfigManager.getattr key c' = Some v)
  /\ (forall key, ~ (In key (map fst kwargs)
                     /\ ConfigManager.is_field key = true) ->
                  ConfigManager.getattr key c' = ConfigManager.getattr key c).
Proof.
  intros N U. unfold ConfigManager.update in U.
  destruct (ConfigManager.update_fields class_attribute kwargs c)
    as [c1|] eqn:E; [|discriminate].
  inversion U; subst c1 fs'. clear U.
  split; [reflexivity|]. split; [destruct c'; reflexivity|].
  split; [reflexivity|].
  revert c E N. induction kwargs as [|[k w] kwargs IH]; intros c E N.
  - simpl in E. inversion E; subst. split; [intros ? ? []|reflexivity].
  - simpl in E, N. inversion N as [|x xs Nk Nr]; subst.
    destruct (ConfigManager.is_field k) eqn:F.
    + destruct (IH _ E Nr) as [S O]. split.
      * intros key v [Q|I] Fk; [|apply S; assumption].
        inversion Q; subst. rewrite O.
        -- apply getattr_setattr; exact Fk.
        -- intros [I _]. contradiction.
      * intros key H. rewrite O by (intros [I Fk]; apply H; simpl; auto).
        apply getattr_setattr_other. intros ->. apply H. simpl. auto.
    + destruct (class_attribute k); [discriminate|].
      destruct (IH _ E Nr) as [S O]. split.
      * intros key v [Q|I] Fk; [|apply S; assumption].
        inversion Q; subst. congruence.
      * intros key H. apply O. intros [I Fk]. apply H. simpl. auto.
Qed.

Lemma update_persists_witness :
  let methods := fun key => String.eqb key "default" in
  let c := Config.default "/data/todoui.db" "/data/backups" in
  let fs := Config.mk_fs None [] in
  let kwargs := [("frame_count", Config.VInt 2); ("colour", Config.VInt 7)] in
  NoDup (map fst kwargs)
  /\ exists c' fs',
       ConfigManager.update methods kwargs c fs = Some (c', fs')
       /\ Config.frame_count c' = Config.VInt 2
       /\ Config.config_file fs'
          = Some (Config.Document (Config.asdict c')).
Proof.
  intros methods c fs kwargs.
  assert (N : NoDup (map fst kwargs)).
  { repeat constructor; simpl; intuition discriminate. }
  split; [exact N|].
  eexists. eexists. split; [reflexivity|]. split; [reflexivity|].
  exact (proj1 (update_persists methods kwargs c fs _ _ N eq_refl)).
Defined.

(** ** The panes *)

Lemma proj_names_get_found ps pid :
  (exists p0, In p0 ps /\ Project.id p0 = pid) ->
  exists p, In p ps /\ Project.id p = pid
            /\ Widgets.proj_names_get ps pid = Project.name p.
Proof.
  intros (p0 & I0 & E0). unfold Widgets.proj_names_get.
  destruct (find _ (rev ps)) as [p|] eqn:F.
  - apply find_some in F. destruct F as [I C].
    apply in_rev in I. apply Z.eqb_eq in C. exists p. auto.
  - exfalso. apply in_rev in I0.
    pose proof (find_none _ _ F p0 I0) as C. cbv beta in C.
    subst pid. rewrite Z.eqb_refl in C. discriminate C.
Qed.

Lemma labelled_rows_in (tasks : list Task.t) ps t label :
  In (t, label)
    (if is_empty tasks then []
     else map (fun t => (t, Widgets.proj_names_get ps (Task.project_id t)))
            tasks) ->
  In t tasks /\ label = Widgets.proj_names_get ps (Task.project_id t).
Proof.
  destruct (is_empty tasks); [intros []|].
  intros I. apply in_map_iff in I. destruct I as (t0 & E & I).
  inversion E; subst. auto.
Qed.

(** X22.  With the filter on all projects, the calendar and the history
    show beside each task the name of a project that exists, is not
    archived and has the id the task refers to: the fallback label is
    never used there. *)
Theorem all_projects_rows_are_labelled m t label :
  In (t, label) (Widgets.calendar_items None m)
  \/ In (t, label) (Widgets.history_items None m) ->
  exists p,
    In p (projects (db m))
    /\ Project.id p = Task.project_id t
    /\ Project.is_archived p = false
    /\ Project.name p = label.
Proof.
  intros H.
  assert (X : label = Widgets.proj_names_get (get_projects false m)
                        (Task.project_id t)
              /\ exists p0, In p0 (get_projects false m)
                            /\ Project.id p0 = Task.project_id t).
  { destruct H as [H|H]; apply labelled_rows_in in H; destruct H as [I L];
      (split; [exact L|]).
    - apply get_tasks_with_due_dates_iff in I.
      destruct I as (_ & _ & _ & _ & p & J & E & A).
      exists p. split; [|exact E]. apply get_projects_in. auto.
    - apply get_completed_tasks_iff in I.
      destruct I as (_ & _ & _ & p & J & E & A).
      exists p. split; [|exact E]. apply get_projects_in. auto. }
  destruct X as [L Y]. apply proj_names_get_found in Y.
  destruct Y as (p & I & E & Q). apply get_projects_in in I.
  destruct I as [I [A|A]]; [discriminate|].
  exists p. repeat split; auto. congruence.
Qed.

Lemma all_projects_rows_are_labelled_witness :
  let buy_milk :=
    Task.mk 1 1 "Buy milk" 0 (Some 500) false false 20 None None in
  In (buy_milk, "Home") (Widgets.calendar_items None Example.m4)
  /\ exists p,
       In p (projects (db Example.m4))
       /\ Project.id p = 1
       /\ Project.is_archived p = false
       /\ Project.name p = "Home".
Proof.
  intros buy_milk.
  assert (I : In (buy_milk, "Home") (Widgets.calendar_items None Example.m4)).
  { left; reflexivity. }
  split; [exact I|].
  exact (all_projects_rows_are_labelled Example.m4 buy_milk "Home"
           (or_introl I)).
Defined.

Section SortedFacts.
Context {A : Type} (R : A -> A -> Prop).

Lemma filter_sorted (f : A -> bool) l :
  StronglySorted R l -> StronglySorted R (filter f l).
Proof.
  induction 1 as [|a l S IH F]; simpl; [constructor|].
  destruct (f a); [|exact IH]. constructor; [exact IH|].
  rewrite Forall_forall in *. intros b I. apply filter_In in I.
  apply F. tauto.
Qed.

Lemma filter_split_perm (f : A -> bool) l :
  Permutation (filter (fun a => negb (f a)) l ++ filter f l) l.
Proof.
  induction l as [|a l IH]; simpl; [constructor|].
  destruct (f a); simpl.
  - rewrite <- Permutation_middle. constructor. exact IH.
  - constructor. exact IH.
Qed.
End SortedFacts.

(** X23.  The two panes of a project share out its default listing: the
    tasks not completed go to the active pane, the completed ones to the
    other, none is lost or shown twice, and each pane is in ascending
    order of priority, then of creation time. *)
Theorem task_panes_split pid m :
  let (active, completed) := Widgets.task_panes (Some pid) m in
  Permutation (active ++ completed) (get_tasks pid false m)
  /\ Forall (fun t => Task.is_completed t = false) active
  /\ Forall (fun t => Task.is_completed t = true) completed
  /\ StronglySorted priority_created_le active
  /\ StronglySorted priority_created_le completed.
Proof.
  unfold Widgets.task_panes.
  assert (S : StronglySorted priority_created_le (get_tasks pid false m)).
  { unfold get_tasks.
    apply order_by_sorted with (le := priority_created_le);
      auto using priority_created_leb_le, priority_created_leb_total.
    exact priority_created_le_trans. }
  split; [apply filter_split_perm|].
  split; [apply Forall_forall; intros t I; apply filter_In in I;
          apply negb_true_iff; tauto|].
  split; [apply Forall_forall; intros t I; apply filter_In in I; tauto|].
  split; apply filter_sorted; exact S.
Qed.

Lemma selected_index_spec current ps i selected :
  (Widgets.selected_index current ps i selected = selected
   /\ forall pid p, current = Some pid -> In p ps -> Project.id p <> pid)
  \/ exists k p,
       Widgets.selected_index current ps i selected = S (i + k)
       /\ nth_error ps k = Some p
       /\ current = Some (Project.id p).
Proof.
  revert i selected. induction ps as [|q ps IH]; intros i selected; simpl.
  - left. split; [reflexivity|]. intros pid p _ [].
  - destruct (IH (S i)
                (match current with
                 | Some id => if Project.id q =? id then S i else selected
                 | None => selected
                 end)) as [[E N]|(k & p & E & T & C)].
    + rewrite E. destruct current as [id|].
      * destruct (Project.id q =? id) eqn:Q.
        -- right. exists O, q. apply Z.eqb_eq in Q.
           rewrite Nat.add_0_r. subst id. auto.
        -- left. split; [reflexivity|].
           intros pid p H [<-|I].
           ++ inversion H; subst. apply Z.eqb_neq. exact Q.
           ++ eapply N; eauto.
      * left. split; [reflexivity|]. intros pid p H. discriminate H.
    + right. exists (S k), p. rewrite E, Nat.add_succ_r. auto.
Qed.

(** X24.  [_refresh_projects] keeps the selection of a pane only when
    it is the id of a project that exists and is not archived; any other
    selection, that of a project archived or deleted in another pane for
    one, is cleared. *)
Theorem refresh_projects_selection current m :
  match Widgets._refresh_projects current m with
  | Some pid =>
      current = Some pid
      /\ exists p, In p (projects (db m))
                   /\ Project.id p = pid /\ Project.is_archived p = false
  | None =>
      forall pid p, current = Some pid -> In p (projects (db m)) ->
                    Project.id p = pid -> Project.is_archived p = true
  end.
Proof.
  unfold Widgets._refresh_projects.
  destruct (selected_index_spec current (get_projects false m) 0 0)
    as [[E N]|(k & p & E & T & C)]; rewrite E.
  - intros pid p H I Q. destruct (Project.is_archived p) eqn:A; [reflexivity|].
    exfalso. apply (N pid p H); [|exact Q].
    apply get_projects_in. auto.
  - cbn [Nat.add]. rewrite T. cbn [option_map]. split; [exact C|].
    apply nth_error_In in T. apply get_projects_in in T.
    destruct T as [I [A|A]]; [discriminate|]. exists p. auto.
Qed.

(** ** Projects and completion, further *)

(** X25.  [create_project] returns the row it inserts: not archived,
    dated with the time of the call, listed at once among the projects;
    the rows that were there stay and no task row changes. *)
Theorem create_project_listed name description now m :
  let (p, m') := create_project name description now m in
  p = Project.mk (seq_projects (db m) + 1) name description false now None
  /\ In p (get_projects false m')
  /\ (forall q, In q (projects (db m)) -> In q (projects (db m')))
  /\ tasks (db m') = tasks (db m).
Proof.
  unfold create_project. split; [reflexivity|]. split; [|split; [|reflexivity]].
  - apply get_projects_in. split; [|auto].
    cbn [db projects _backup with_db].
    apply in_or_app. right. left. reflexivity.
  - intros q I. cbn [db projects _backup with_db]. apply in_or_app. auto.
Qed.

(** X26.  [complete_task] on a task that is not deleted: the task,
    flagged and dated with the time of the call, is in the listing of
    completed tasks of its project and still in the default listing of
    the project, and no task with its id is in a listing by due date. *)
Theorem complete_task_moves_task m t now :
  In t (tasks (db m)) ->
  Task.is_deleted t = false ->
  let m' := complete_task (Task.id t) now m in
  let t' := Task.set_completed_at (Some now) (Task.set_is_completed true t) in
  In t' (get_completed_tasks (Some (Task.project_id t)) m')
  /\ In t' (get_tasks (Task.project_id t) false m')
  /\ forall pid,
       ~ In (Task.id t) (map Task.id (get_tasks_with_due_dates pid m')).
Proof.
  intros I D m' t'.
  assert (E : tasks (db m')
              = Sql.update
                  (fun r => Task.set_completed_at (Some now)
                              (Task.set_is_completed true r))
                  (fun r => Task.id r =? Task.id t) (tasks (db m)))
    by reflexivity.
  assert (J : In t' (tasks (db m'))).
  { rewrite E. apply in_update. exists t. split; [exact I|].
    rewrite Z.eqb_refl. reflexivity. }
  split; [|split].
  - apply get_completed_tasks_iff. simpl. auto.
  - unfold get_tasks, Sql.select. rewrite in_order_by, filter_In.
    split; [exact J|]. simpl. rewrite Z.eqb_refl, D. reflexivity.
  - intros pid L. apply in_map_iff in L. destruct L as (r' & Q & L).
    apply get_tasks_with_due_dates_iff in L.
    destruct L as (L & _ & C & _). rewrite E in L. apply in_update in L.
    destruct L as (r & _ & ->).
    destruct (Task.id r =? Task.id t) eqn:X; [discriminate C|].
    apply Z.eqb_neq in X. contradiction.
Qed.

Lemma complete_task_moves_task_witness :
  let buy_milk :=
    Task.mk 1 1 "Buy milk" 0 (Some 500) false false 20 None None in
  In buy_milk (tasks (db Example.m4))
  /\ Task.is_deleted buy_milk = false
  /\ In (Task.mk 1 1 "Buy milk" 0 (Some 500) true false 20 (Some 95) None)
       (get_completed_tasks (Some 1) (complete_task 1 95 Example.m4)).
Proof.
  intros buy_milk.
  assert (I : In buy_milk (tasks (db Example.m4))) by (left; reflexivity).
  split; [exact I|]. split; [reflexivity|].
  exact (proj1 (complete_task_moves_task Example.m4 buy_milk 95 I eq_refl)).
Defined.

Lemma exec_project_rows c m p' :
  In p' (projects (db (state (exec c m)))) ->
  In p' (projects (db m)) \/ Store.archive_consistent p'.
Proof.
  assert (upd : forall set tid,
             projects (db (_backup (update_tasks set tid m)))
             = projects (db m)) by reflexivity.
  destruct c as [name description now|pid title priority due now|mu];
    cbn [exec].
  - cbn. intros I. apply in_app_or in I. destruct I as [I|[<-|[]]]; [auto|].
    right. split; simpl; congruence.
  - destruct (int64 pid && int64 priority); [|cbn; auto].
    unfold create_task. destruct (_ && _); cbn; auto.
  - unfold mutate. destruct (binds mu); [|cbn; auto].
    destruct mu as [pid now|pid|tid now|tid|tid now|tid kwargs];
      cbn [run state];
      unfold complete_task, uncomplete_task, delete_task;
      try (rewrite upd; auto; fail).
    + unfold archive_project. cbn. intros I. apply in_update in I.
      destruct I as (p & I & ->). destruct (Project.id p =? pid); [|auto].
      right. split; simpl; congruence.
    + unfold delete_project, Sql.delete. cbn. intros I.
      apply filter_In in I. tauto.
    + destruct (update_task_cases tid kwargs m) as [E|(set & E & _)];
        rewrite E; [|rewrite upd]; auto.
Qed.

(** X27.  In a store that started on a new file a project has an
    [archived_at] exactly when it is flagged as archived. *)
Theorem archived_at_iff_is_archived m :
  reachable m ->
  Forall Store.archive_consistent (projects (db m)).
Proof.
  unfold reachable. intros R.
  remember (init empty_database []) as m0 eqn:E0.
  induction R as [|m1 m2 m3 S IH St]; [subst; constructor|].
  specialize (IH E0). destruct St as [c m2|m2]; [|exact IH].
  rewrite Forall_forall in *. intros p I.
  apply exec_project_rows in I. destruct I as [I|I]; auto.
Qed.

Lemma archived_at_iff_is_archived_witness :
  reachable Example.m4
  /\ Forall Store.archive_consistent (projects (db Example.m4)).
Proof.
  split; [exact example_reachable|].
  exact (archived_at_iff_is_archived Example.m4 example_reachable).
Defined.
